(** * DreamSight front end: hexagram decoder and API gateway client

    A shallow embedding of the two pieces of logic of the web client:

    - [Hexagram]: [components/HexagramVisual.tsx], the trigram tables,
      [parseTrigramSymbols] and the [allLines] sequence of the component;
    - [Api]: [lib/api.ts], [ApiException], [buildBaseHeaders], [apiFetch],
      [apiFetchWithAuth] and the [dreamApi] calls, together with
      [getAccessToken] of [lib/supabase.ts];
    - [Auth]: [getToken] of the [AuthProvider] context.

    JavaScript strings are sequences of UTF-16 code units; they are
    embedded as [list N].  Objects used as dictionaries are [gmap]s of
    their own properties, with the properties inherited from
    [Object.prototype] made explicit where a lookup can reach them. *)

From Stdlib Require Import ZArith NArith Ascii String List Bool Lia.
From Stdlib Require Import DecimalString Floats.
From stdpp Require Import base option list gmap.

Local Open Scope N_scope.

(** ** JavaScript strings *)

Abbreviation jsstring := (list N).

(** An ASCII literal as a JavaScript string. *)
Definition js (s : string) : jsstring :=
  List.map N_of_ascii (list_ascii_of_string s).

(** Truthiness of a string: only the empty string is falsy. *)
Definition str_truthy (s : jsstring) : bool :=
  match s with [] => false | _ :: _ => true end.

(** Normal and abrupt completion of a call. *)
Inductive completion (E A : Type) : Type :=
| Normal (a : A)
| Throw (e : E).
Arguments Normal {E A} a.
Arguments Throw {E A} e.

(** ** Properties every object literal inherits from [Object.prototype] *)

Definition Object_prototype_keys : list jsstring :=
  [ js "constructor"; js "__proto__"; js "hasOwnProperty"; js "isPrototypeOf";
    js "propertyIsEnumerable"; js "toLocaleString"; js "toString"; js "valueOf";
    js "__defineGetter__"; js "__defineSetter__";
    js "__lookupGetter__"; js "__lookupSetter__" ].

Definition inherited (k : jsstring) : bool :=
  bool_decide (k ∈ Object_prototype_keys).

Module Hexagram.

(** *** Code units used by the component *)

Definition sym_heaven   : N := 0x2630. (* ☰ *)
Definition sym_lake     : N := 0x2631. (* ☱ *)
Definition sym_fire     : N := 0x2632. (* ☲ *)
Definition sym_thunder  : N := 0x2633. (* ☳ *)
Definition sym_wind     : N := 0x2634. (* ☴ *)
Definition sym_water    : N := 0x2635. (* ☵ *)
Definition sym_mountain : N := 0x2636. (* ☶ *)
Definition sym_earth    : N := 0x2637. (* ☷ *)

(** A line of a trigram: [true] is solid (yang), [false] is broken (yin). *)
Definition solid : bool := true.
Definition broken : bool := false.

Abbreviation lines3 := (bool * bool * bool)%type.

(** [TRIGRAM_LINES]: own properties of the table, lines bottom to top. *)
Definition TRIGRAM_LINES : gmap jsstring lines3 :=
  list_to_map
    [ ([sym_heaven],   (true,  true,  true));
      ([sym_earth],    (false, false, false));
      ([sym_water],    (false, true,  false));
      ([sym_fire],     (true,  false, true));
      ([sym_thunder],  (false, false, true));
      ([sym_wind],     (true,  true,  false));
      ([sym_mountain], (false, false, true));
      ([sym_lake],     (false, true,  true)) ].

(** [TRIGRAM_NAMES]: own properties of the synonym table.  The Vietnamese
    keys are spelled with their precomposed code units, as in the source. *)
Definition TRIGRAM_NAMES : gmap jsstring jsstring :=
  list_to_map
    [ (js "c" ++ [0xE0] ++ js "n",            [sym_heaven]);   (* càn *)
      (js "tr" ++ [0x1EDD] ++ js "i",         [sym_heaven]);   (* trời *)
      (js "heaven",                           [sym_heaven]);
      (js "kh" ++ [0xF4] ++ js "n",           [sym_earth]);    (* khôn *)
      ([0x111; 0x1EA5] ++ js "t",             [sym_earth]);    (* đất *)
      (js "earth",                            [sym_earth]);
      (js "kh" ++ [0x1EA3] ++ js "m",         [sym_water]);    (* khảm *)
      (js "n" ++ [0x1B0; 0x1EDB] ++ js "c",   [sym_water]);    (* nước *)
      (js "water",                            [sym_water]);
      (js "ly",                               [sym_fire]);
      (js "l" ++ [0x1EED] ++ js "a",          [sym_fire]);     (* lửa *)
      (js "fire",                             [sym_fire]);
      (js "ch" ++ [0x1EA5] ++ js "n",         [sym_thunder]);  (* chấn *)
      (js "s" ++ [0x1EA5] ++ js "m",          [sym_thunder]);  (* sấm *)
      (js "thunder",                          [sym_thunder]);
      (js "t" ++ [0x1ED1] ++ js "n",          [sym_wind]);     (* tốn *)
      (js "gi" ++ [0xF3],                     [sym_wind]);     (* gió *)
      (js "wind",                             [sym_wind]);
      (js "c" ++ [0x1EA5] ++ js "n",          [sym_mountain]); (* cấn *)
      (js "n" ++ [0xFA] ++ js "i",            [sym_mountain]); (* núi *)
      (js "mountain",                         [sym_mountain]);
      ([0x111] ++ js "o" ++ [0xE0] ++ js "i", [sym_lake]);     (* đoài *)
      ([0x111; 0x1EA7] ++ js "m",             [sym_lake]);     (* đầm *)
      (js "lake",                             [sym_lake]) ].

(** *** The regular expressions of [parseTrigramSymbols] *)

(** The class [[☰☱☲☳☴☵☶☷]]. *)
Definition is_trigram_symbol (c : N) : bool :=
  (0x2630 <=? c) && (c <=? 0x2637).

(** [\s]: the white space and line terminator code units. *)
Definition is_space (c : N) : bool :=
  ((9 <=? c) && (c <=? 13)) || (c =? 32) || (c =? 0xA0) || (c =? 0x1680)
  || ((0x2000 <=? c) && (c <=? 0x200A)) || (c =? 0x2028) || (c =? 0x2029)
  || (c =? 0x202F) || (c =? 0x205F) || (c =? 0x3000) || (c =? 0xFEFF).

(** [\w]: [[A-Za-z0-9_]]. *)
Definition is_word (c : N) : bool :=
  ((65 <=? c) && (c <=? 90)) || ((97 <=? c) && (c <=? 122))
  || ((48 <=? c) && (c <=? 57)) || (c =? 95).

(** A literal letter under the [i] flag: the letter itself or its other
    case.  (Without the [u] flag a code unit is compared through its
    upper-case form, and no other code unit shares the upper-case form of
    the letters used here.) *)
Definition ci (lower upper : N) (c : N) : bool := (c =? lower) || (c =? upper).

(** The literal part of [/thượng\s+(\w+)/i]. *)
Definition marker_upper : list (N -> bool) :=
  [ ci 116 84; ci 104 72; ci 0x1B0 0x1AF; ci 0x1EE3 0x1EE2; ci 110 78; ci 103 71 ].

(** The literal part of [/hạ\s+(\w+)/i]. *)
Definition marker_lower : list (N -> bool) :=
  [ ci 104 72; ci 0x1EA1 0x1EA0 ].

(** Match the literal part at the head of [s]; the rest of [s] follows. *)
Fixpoint match_literal (lit : list (N -> bool)) (s : jsstring) : option jsstring :=
  match lit, s with
  | [], _ => Some s
  | p :: lit', c :: s' => if p c then match_literal lit' s' else None
  | _ :: _, [] => None
  end.

(** The longest prefix of [s] whose code units satisfy [p], and the rest. *)
Fixpoint span (p : N -> bool) (s : jsstring) : jsstring * jsstring :=
  match s with
  | c :: s' => if p c then let '(run, rest) := span p s' in (c :: run, rest)
               else ([], s)
  | [] => ([], [])
  end.

(** [lit\s+(\w+)] anchored at the head of [s]; the result is group 1.
    [\s+] and [\w+] are greedy and their classes are disjoint, so giving
    back white space can never make [\w+] succeed: the greedy attempt
    decides the match. *)
Definition match_here (lit : list (N -> bool)) (s : jsstring) : option jsstring :=
  match match_literal lit s with
  | None => None
  | Some after_lit =>
      match span is_space after_lit with
      | ([], _) => None
      | (_ :: _, after_space) =>
          match span is_word after_space with
          | ([], _) => None
          | (name, _) => Some name
          end
      end
  end.

(** [s.match(/lit\s+(\w+)/i)?.[1]]: group 1 of the leftmost match. *)
Fixpoint match_marker (lit : list (N -> bool)) (s : jsstring) : option jsstring :=
  match match_here lit s with
  | Some name => Some name
  | None => match s with
            | [] => None
            | _ :: s' => match_marker lit s'
            end
  end.

(** [s.match(/[☰☱☲☳☴☵☶☷]/g)]: every matched symbol in order, [null]
    (here [None]) when there is none. *)
Definition match_symbols (s : jsstring) : option (list jsstring) :=
  match List.filter is_trigram_symbol s with
  | [] => None
  | cs => Some (List.map (fun c => [c]) cs)
  end.

(** [toLowerCase] on the ASCII letters; group 1 holds only [\w] code units. *)
Definition toLowerCase (s : jsstring) : jsstring :=
  List.map (fun c => if (65 <=? c) && (c <=? 90) then c + 32 else c) s.

(** *** Trigram references *)

(** What a slot of the parse result holds at run time: [null], a string,
    or a built-in reached through [Object.prototype] (a function or an
    object, named here by the key that reached it). *)
Inductive slot : Type :=
| SNull
| SStr (s : jsstring)
| SBuiltin (key : jsstring).

(** [TRIGRAM_NAMES[name] || null]. *)
Definition lookup_name (name : jsstring) : slot :=
  match TRIGRAM_NAMES !! name with
  | Some sym => if str_truthy sym then SStr sym else SNull
  | None => if inherited name then SBuiltin name else SNull
  end.

Record trigrams : Type := { upper : slot; lower : slot }.

(** [name ? (TRIGRAM_NAMES[name] || null) : null], [name] being
    [match?.[1]?.toLowerCase()]. *)
Definition resolve (m : option jsstring) : slot :=
  match m with
  | None => SNull
  | Some cap =>
      let name := toLowerCase cap in
      if str_truthy name then lookup_name name else SNull
  end.

Definition parseTrigramSymbols (structure : jsstring) : trigrams :=
  match match_symbols structure with
  | Some (s0 :: s1 :: _) => {| upper := SStr s0; lower := SStr s1 |}
  | _ =>
      let upperMatch := match_marker marker_upper structure in
      let lowerMatch := match_marker marker_lower structure in
      {| upper := resolve upperMatch; lower := resolve lowerMatch |}
  end.

(** *** The line sequence of the component *)

Inductive render_error : Type := TypeError.

Definition slot_truthy (r : slot) : bool :=
  match r with
  | SNull => false
  | SStr s => str_truthy s
  | SBuiltin _ => true
  end.

(** [TRIGRAM_LINES[ref].slice()]: a copy of the triple of an own key.  Any
    other key gives [undefined] or an inherited built-in, neither of which
    has a [slice] method, and the call throws. *)
Definition lines_slice (r : slot) : completion render_error (list bool) :=
  match r with
  | SStr s =>
      match TRIGRAM_LINES !! s with
      | Some (a, b, c) => Normal [a; b; c]
      | None => Throw TypeError
      end
  | _ => Throw TypeError
  end.

(** [(ref ? TRIGRAM_LINES[ref] : [true, true, true]).slice().reverse()]. *)
Definition reversed_lines (r : slot) : completion render_error (list bool) :=
  if slot_truthy r then
    match lines_slice r with
    | Normal l => Normal (rev l)
    | Throw e => Throw e
    end
  else Normal (rev [true; true; true]).

(** [allLines] of [HexagramVisual], from the two references. *)
Definition allLines (up lo : slot) : completion render_error (list bool) :=
  match reversed_lines up with
  | Throw e => Throw e
  | Normal u =>
      match reversed_lines lo with
      | Throw e => Throw e
      | Normal l => Normal (u ++ l)
      end
  end.

(** [allLines] as the component computes it from its [structure] prop. *)
Definition HexagramVisual_allLines (structure : jsstring) : completion render_error (list bool) :=
  let t := parseTrigramSymbols structure in
  allLines (upper t) (lower t).

End Hexagram.

(** ** Values, errors and the platform the client runs on *)

(** A value produced by [JSON.parse]. *)
#[warnings="-register-all"]
Inductive json : Type :=
| JNull
| JBool (b : bool)
| JNum (x : float)
| JStr (s : jsstring)
| JArr (items : list json)
| JObj (props : list (jsstring * json)).

(** A value that may be [undefined] is an [option json], [None] being
    [undefined]. *)
Definition truthy (v : option json) : bool :=
  match v with
  | None | Some JNull => false
  | Some (JBool b) => b
  | Some (JNum x) => negb (PrimFloat.is_zero x || PrimFloat.is_nan x)
  | Some (JStr s) => str_truthy s
  | Some (JArr _) | Some (JObj _) => true
  end.

(** [a || b]. *)
Definition js_or (a b : option json) : option json :=
  if truthy a then a else b.

(** The own property [k] of a parsed object. *)
Fixpoint own_property (props : list (jsstring * json)) (k : jsstring) : option json :=
  match props with
  | [] => None
  | (k', v) :: rest => if bool_decide (k' = k) then Some v else own_property rest k
  end.

(** [n] in decimal, as a template literal prints an integer. *)
Definition decimal (n : N) : jsstring := js (NilZero.string_of_uint (N.to_uint n)).

(** The client's structured error. *)
Record ApiException : Type := {
  message : jsstring;
  name : jsstring;
  statusCode : N;
  detail : option json;
}.

(** What a call can throw: the client's own exception, a [TypeError] of
    the language, or an error raised by the platform (the transport
    failure of [fetch], the parse error of [Response.json], an error of
    the identity SDK), kept as an opaque tag. *)
Inductive thrown : Type :=
| ThrownApi (e : ApiException)
| ThrownTypeError
| ThrownPlatform (tag : jsstring).

(** [RequestInit], as far as the client fills it; [headers] is a plain
    object of strings, the one form of [HeadersInit] the client builds. *)
Record RequestInit : Type := {
  method : option jsstring;
  body : option jsstring;
  headers : option (gmap jsstring jsstring);
}.

(** A [Response]; [json_body] is the outcome of [response.json()]. *)
Record Response : Type := {
  status : N;
  statusText : jsstring;
  json_body : completion thrown json;
}.

(** [response.ok]: the status is in the range 200-299. *)
Definition ok (r : Response) : bool := (200 <=? status r) && (status r <=? 299).

(** A session of the identity provider. *)
Record Session : Type := {
  access_token : jsstring;
  expires_at : option Z;
}.

(** The answer of [supabase.auth.getSession()] and [refreshSession()]:
    [{ data: { session }, error }]. *)
Record AuthResponse : Type := {
  data_session : option Session;
  error : option jsstring;
}.

(** The environment: build-time configuration and the external calls. *)
Record Platform : Type := {
  NEXT_PUBLIC_API_URL : option jsstring;
  NEXT_PUBLIC_API_SECRET : option jsstring;
  fetch : jsstring -> option RequestInit -> completion thrown Response;
  getSession : completion thrown AuthResponse;
  refreshSession : completion thrown AuthResponse;
  Date_now : Z;
  Number_toString : float -> jsstring;
}.

(** What the outside can observe of a call. *)
Inductive event : Type :=
| EvGetSession
| EvRefreshSession
| EvFetch (url : jsstring) (init : option RequestInit)
| EvConsoleLog (msg : jsstring)
| EvConsoleError (msg : jsstring).

(** Computations: a completion and the events appended to the log. *)
Definition M (A : Type) : Type := list event -> completion thrown A * list event.

Definition ret {A} (a : A) : M A := fun log => (Normal a, log).

Definition throw {A} (e : thrown) : M A := fun log => (Throw e, log).

Definition bind {A B} (m : M A) (k : A -> M B) : M B :=
  fun log =>
    match m log with
    | (Normal a, log') => k a log'
    | (Throw e, log') => (Throw e, log')
    end.

Definition try_catch {A} (m : M A) (handler : thrown -> M A) : M A :=
  fun log =>
    match m log with
    | (Normal a, log') => (Normal a, log')
    | (Throw e, log') => handler e log'
    end.

Definition emit (ev : event) : M unit := fun log => (Normal tt, log ++ [ev]).

Definition lift {A} (c : completion thrown A) : M A := fun log => (c, log).

Declare Scope js_scope.
Delimit Scope js_scope with js.
Notation "'await' x <- m ; k" := (bind m (fun x => k))
  (at level 10, x name, m at level 100, k at level 200) : js_scope.
Notation "m ;; k" := (bind m (fun _ => k))
  (at level 100, k at level 200, right associativity) : js_scope.
Local Open Scope js_scope.

Definition console_log (msg : jsstring) : M unit := emit (EvConsoleLog msg).
Definition console_error (msg : jsstring) : M unit := emit (EvConsoleError msg).

(** The requests sent during a run, in order. *)
Fixpoint requests (log : list event) : list (jsstring * option RequestInit) :=
  match log with
  | [] => []
  | EvFetch url init :: rest => (url, init) :: requests rest
  | _ :: rest => requests rest
  end.

(** The number of session refreshes during a run. *)
Fixpoint refreshes (log : list event) : nat :=
  match log with
  | [] => 0%nat
  | EvRefreshSession :: rest => S (refreshes rest)
  | _ :: rest => refreshes rest
  end.

(** [{ ...a, ...b }]: the properties of [b] win. *)
Definition spread (a b : gmap jsstring jsstring) : gmap jsstring jsstring := b ∪ a.

(** [...h] for an optional object: [undefined] spreads to nothing. *)
Definition spread_opt (h : option (gmap jsstring jsstring)) : gmap jsstring jsstring :=
  match h with Some m => m | None => ∅ end.

Module Supabase.

(** [getAccessToken] of [lib/supabase.ts]. *)
Definition getAccessToken (P : Platform) : M (option jsstring) :=
  try_catch
    (await r <- (emit EvGetSession ;; lift (getSession P)) ;
     ret (match data_session r with
          | Some s => Some (access_token s)
          | None => None
          end))
    (fun _ =>
       console_error (js "Error getting access token:") ;;
       ret None).

End Supabase.

Module Api.

(** *** Configuration *)

(** [process.env.NEXT_PUBLIC_API_URL || "http://localhost:8000"]. *)
Definition API_BASE_URL (P : Platform) : jsstring :=
  match NEXT_PUBLIC_API_URL P with
  | Some u => if str_truthy u then u else js "http://localhost:8000"
  | None => js "http://localhost:8000"
  end.

(** [process.env.NEXT_PUBLIC_API_SECRET || ""]. *)
Definition API_SECRET_KEY (P : Platform) : jsstring :=
  match NEXT_PUBLIC_API_SECRET P with
  | Some k => if str_truthy k then k else []
  | None => []
  end.

(** *** [ApiException] *)

(** The argument of the constructor, with the values it holds at run
    time: [error] and [detail] come straight from the parsed body. *)
Record ApiError : Type := {
  err_error : option json;
  err_detail : option json;
  status_code : N;
}.

(** [ToString] on a parsed value.  An array joins its elements with
    commas, [null] printing as the empty string; an object prints through
    the inherited [toString] unless an own property of that name (never
    callable in parsed JSON) shadows it, in which case the conversion
    throws. *)
Fixpoint ToString (P : Platform) (v : json) : completion thrown jsstring :=
  match v with
  | JNull => Normal (js "null")
  | JBool true => Normal (js "true")
  | JBool false => Normal (js "false")
  | JNum x => Normal (Number_toString P x)
  | JStr s => Normal s
  | JArr items =>
      (fix join (l : list json) : completion thrown jsstring :=
         match l with
         | [] => Normal []
         | x :: rest =>
             match (match x with JNull => Normal [] | _ => ToString P x end) with
             | Throw e => Throw e
             | Normal sx =>
                 match rest with
                 | [] => Normal sx
                 | _ :: _ =>
                     match join rest with
                     | Throw e => Throw e
                     | Normal sr => Normal (sx ++ js "," ++ sr)
                     end
                 end
             end
         end) items
  | JObj props =>
      match own_property props (js "toString") with
      | Some _ => Throw ThrownTypeError
      | None => Normal (js "[object Object]")
      end
  end.

(** [new ApiException(error)]: [super(error.error || error.detail ||
    "Unknown error")] stores the string form of its argument. *)
Definition new_ApiException (P : Platform) (error : ApiError) : M ApiException :=
  match js_or (js_or (err_error error) (err_detail error))
              (Some (JStr (js "Unknown error"))) with
  | None => ret {| message := []; name := js "ApiException";
                   statusCode := status_code error; detail := err_detail error |}
  | Some arg =>
      await msg <- lift (ToString P arg) ;
      ret {| message := msg; name := js "ApiException";
             statusCode := status_code error; detail := err_detail error |}
  end.

Definition isApiKeyError (e : ApiException) : bool := statusCode e =? 403.
Definition isAuthError (e : ApiException) : bool := statusCode e =? 401.
Definition isRateLimitError (e : ApiException) : bool := statusCode e =? 429.

(** *** Requests *)

Definition buildBaseHeaders (P : Platform) : gmap jsstring jsstring :=
  let headers : gmap jsstring jsstring :=
    {[ js "Content-Type" := js "application/json" ]} in
  if str_truthy (API_SECRET_KEY P)
  then <[ js "X-API-Key" := API_SECRET_KEY P ]> headers
  else headers.

(** [{ ...options, headers }]. *)
Definition with_headers (options : RequestInit) (h : gmap jsstring jsstring) : RequestInit :=
  {| method := method options; body := body options; headers := Some h |}.

Definition call_fetch (P : Platform) (url : jsstring) (init : option RequestInit) : M Response :=
  emit (EvFetch url init) ;; lift (fetch P url init).

(** [json.k] for a key that no built-in prototype defines ([detail],
    [message]): reading it from [null] throws, a primitive or an array has
    no such property. *)
Definition get_field (j : json) (k : jsstring) : M (option json) :=
  match j with
  | JNull => throw ThrownTypeError
  | JObj props => ret (own_property props k)
  | _ => ret None
  end.

(** The [try]/[catch] that builds [errorData] from a failed response. *)
Definition read_errorData (response : Response) : M ApiError :=
  try_catch
    (await json <- lift (json_body response) ;
     await json_detail <- get_field json (js "detail") ;
     await json_message <- get_field json (js "message") ;
     ret {| err_error := js_or (js_or json_detail json_message)
                               (Some (JStr (js "Request failed")));
            status_code := status response;
            err_detail := json_detail |})
    (fun _ =>
       ret {| err_error :=
                Some (JStr (js "HTTP " ++ decimal (status response) ++ js ": "
                            ++ statusText response));
              status_code := status response;
              err_detail := None |}).

Definition apiFetch (P : Platform) (endpoint : jsstring) (options : RequestInit) : M json :=
  let url := API_BASE_URL P ++ endpoint in
  let config :=
    with_headers options (spread (buildBaseHeaders P) (spread_opt (headers options))) in
  await response <- call_fetch P url (Some config) ;
  if negb (ok response) then
    await errorData <- read_errorData response ;
    await exception <- new_ApiException P errorData ;
    throw (ThrownApi exception)
  else lift (json_body response).

(** [...(token && { Authorization: `Bearer ${token}` })]: [null] and the
    empty string spread to nothing. *)
Definition bearer (token : option jsstring) : gmap jsstring jsstring :=
  match token with
  | Some t => if str_truthy t then {[ js "Authorization" := js "Bearer " ++ t ]} else ∅
  | None => ∅
  end.

Definition apiFetchWithAuth (P : Platform) (endpoint : jsstring) (options : RequestInit) : M json :=
  let url := API_BASE_URL P ++ endpoint in
  await token <- Supabase.getAccessToken P ;
  let headers :=
    spread (spread (buildBaseHeaders P) (bearer token)) (spread_opt (headers options)) in
  let config := with_headers options headers in
  await response <- call_fetch P url (Some config) ;
  if negb (ok response) then
    await errorData <- read_errorData response ;
    await exception <- new_ApiException P errorData ;
    (if isApiKeyError exception then
       console_error ([0x274C] ++ js " API Key error: Check NEXT_PUBLIC_API_SECRET")
     else if isAuthError exception then
       console_error ([0x274C] ++ js " Auth error: Token expired or invalid")
     else if isRateLimitError exception then
       console_error ([0x23F1; 0xFE0F] ++ js " Rate limit exceeded")
     else ret tt) ;;
    throw (ThrownApi exception)
  else lift (json_body response).

(** *** [dreamApi] *)

Definition POST (request : jsstring) : RequestInit :=
  {| method := Some (js "POST"); body := Some request; headers := None |}.

Definition GET : RequestInit :=
  {| method := Some (js "GET"); body := None; headers := None |}.

(** The calls the client exposes; [request] is [JSON.stringify(request)]. *)
Definition interpretDream (P : Platform) (request : jsstring) : M json :=
  apiFetch P (js "/api/dreams/interpret") (POST request).

Definition analyzeDream (P : Platform) (request : jsstring) : M json :=
  apiFetchWithAuth P (js "/api/dreams/analyze") (POST request).

(** [limit] is a number; the template literal prints it as
    [Number.prototype.toString] does. *)
Definition getDreamHistory (P : Platform) (limit : float) : M json :=
  apiFetchWithAuth P (js "/api/dreams/history?limit=" ++ Number_toString P limit) GET.

Definition searchSymbols (P : Platform) (request : jsstring) : M json :=
  apiFetch P (js "/api/dreams/search") (POST request).

Definition getCommonSymbols (P : Platform) : M json :=
  apiFetch P (js "/api/dreams/symbols/common") GET.

Definition healthCheck (P : Platform) : M json :=
  let url := API_BASE_URL P ++ js "/api/health" in
  await response <- call_fetch P url None ;
  lift (json_body response).

Definition analyzeTriangle (P : Platform) (request : jsstring) : M json :=
  apiFetch P (js "/api/dreams/triangle") (POST request).

(** The exposed calls with their arguments. *)
Inductive call : Type :=
| InterpretDream (request : jsstring)
| AnalyzeDream (request : jsstring)
| GetDreamHistory (limit : float)
| SearchSymbols (request : jsstring)
| GetCommonSymbols
| HealthCheck
| AnalyzeTriangle (request : jsstring).

Definition dreamApi (P : Platform) (c : call) : M json :=
  match c with
  | InterpretDream r => interpretDream P r
  | AnalyzeDream r => analyzeDream P r
  | GetDreamHistory l => getDreamHistory P l
  | SearchSymbols r => searchSymbols P r
  | GetCommonSymbols => getCommonSymbols P
  | HealthCheck => healthCheck P
  | AnalyzeTriangle r => analyzeTriangle P r
  end.

(** The calls that go through [apiFetchWithAuth]. *)
Definition authenticated (c : call) : bool :=
  match c with
  | AnalyzeDream _ | GetDreamHistory _ => true
  | _ => false
  end.

End Api.

Module Auth.

Local Open Scope Z_scope.

(** [Math.floor(Date.now() / 1000)]. *)
Definition now (P : Platform) : Z := Date_now P / 1000.

(** [expiresAt && expiresAt - now < 60]: an absent expiry and the number
    zero are falsy. *)
Definition expiring_soon (P : Platform) (expiresAt : option Z) : bool :=
  match expiresAt with
  | None => false
  | Some e => negb (e =? 0) && (e - now P <? 60)
  end.

(** [getToken] of the [AuthProvider]. *)
Definition getToken (P : Platform) : M (option jsstring) :=
  try_catch
    (await r <- (emit EvGetSession ;; lift (getSession P)) ;
     match error r with
     | Some _ =>
         console_error (js "Error getting session:") ;;
         ret None
     | None =>
         match data_session r with
         | None =>
             console_log (js "No active session found") ;;
             ret None
         | Some currentSession =>
             let expiresAt := expires_at currentSession in
             if expiring_soon P expiresAt then
               console_log (js "Token expiring soon, refreshing...") ;;
               await refresh <- (emit EvRefreshSession ;; lift (refreshSession P)) ;
               match error refresh, data_session refresh with
               | None, Some refreshed =>
                   console_log (js "Token refreshed successfully") ;;
                   ret (Some (access_token refreshed))
               | _, _ =>
                   console_error (js "Failed to refresh session:") ;;
                   ret None
               end
             else ret (Some (access_token currentSession))
         end
     end)
    (fun _ =>
       console_error (js "Error getting token:") ;;
       ret None).

End Auth.

Module SupabaseChecks.

(** [isAuthenticated] of [lib/supabase.ts]: no [try] around the lookup. *)
Definition isAuthenticated (P : Platform) : M bool :=
  await r <- (emit EvGetSession ;; lift (getSession P)) ;
  ret (match data_session r with Some _ => true | None => false end).

End SupabaseChecks.

Module AuthContextBasic.

(** [getToken] of the auth context in its version without refresh. *)
Definition getToken (P : Platform) : M (option jsstring) :=
  try_catch
    (await r <- (emit EvGetSession ;; lift (getSession P)) ;
     ret (match data_session r with
          | Some s => Some (access_token s)
          | None => None
          end))
    (fun _ =>
       console_error (js "Error getting token:") ;;
       ret None).

End AuthContextBasic.

(** [error.message || fallback] for a caught value whose [message]
    property is [m] ([None] when it has none). *)
Definition message_or (m : option jsstring) (fallback : jsstring) : jsstring :=
  match m with
  | Some text => if str_truthy text then text else fallback
  | None => fallback
  end.

Module DreamForm.

(** The state of the form; [result] is [JNull] and [error] is [None]
    while they hold [null]. *)
Record State : Type := {
  dreamText : jsstring;
  result : json;
  isLoading : bool;
  error : option json;
}.

(** [handleSubmit]; [stringify text] is
    [JSON.stringify({ user_dream: text })]. *)
Definition handleSubmit (P : Platform) (stringify : jsstring -> jsstring)
    (st : State) : M State :=
  let started :=
    {| dreamText := dreamText st; result := JNull; isLoading := true;
       error := None |} in
  await settled <-
    try_catch
      (await response <- Api.analyzeTriangle P (stringify (dreamText st)) ;
       ret {| dreamText := dreamText started; result := response;
              isLoading := isLoading started; error := error started |})
      (fun err =>
         ret {| dreamText := dreamText started; result := result started;
                isLoading := isLoading started;
                error :=
                  match err with
                  | ThrownApi exc =>
                      js_or (detail exc) (Some (JStr (message exc)))
                  | _ =>
                      Some (JStr (js "The oracle is silent right now. Please try again later."))
                  end |}) ;
  ret {| dreamText := dreamText settled; result := result settled;
         isLoading := false; error := error settled |}.

Definition handleReset (st : State) : State :=
  {| dreamText := []; result := JNull; isLoading := isLoading st; error := None |}.

End DreamForm.

Module ProfilePage.

(** The history part of the page state. *)
Record History : Type := {
  dreams : json;
  isLoadingHistory : bool;
  historyError : option jsstring;
}.

(** "Phiên đăng nhập hết hạn. Vui lòng đăng nhập lại." *)
Definition session_expired_text : jsstring :=
  js "Phi" ++ [0xEA] ++ js "n " ++ [0x111; 0x103] ++ js "ng nh" ++ [0x1EAD]
  ++ js "p h" ++ [0x1EBF] ++ js "t h" ++ [0x1EA1] ++ js "n. Vui l" ++ [0xF2]
  ++ js "ng " ++ [0x111; 0x103] ++ js "ng nh" ++ [0x1EAD] ++ js "p l"
  ++ [0x1EA1] ++ js "i.".

(** "Không thể tải lịch sử. Vui lòng thử lại." *)
Definition history_failed_text : jsstring :=
  js "Kh" ++ [0xF4] ++ js "ng th" ++ [0x1EC3] ++ js " t" ++ [0x1EA3]
  ++ js "i l" ++ [0x1ECB] ++ js "ch s" ++ [0x1EED] ++ js ". Vui l" ++ [0xF2]
  ++ js "ng th" ++ [0x1EED] ++ js " l" ++ [0x1EA1] ++ js "i.".

(** How the [try] block of [fetchHistory] ends when it does not throw a
    platform error: with the history, without a token, or by throwing the
    [Error] it built itself, whose message is kept. *)
Inductive attempt : Type :=
| Loaded (data : json)
| NoToken
| Failed (message : jsstring).

Definition history_init (P : Platform) (token : jsstring) : RequestInit :=
  {| method := None; body := None;
     headers := Some (<[ js "X-API-Key" := Api.API_SECRET_KEY P ]>
                        {[ js "Authorization" := js "Bearer " ++ token ]}) |}.

(** The body of the [try] block. *)
Definition try_fetchHistory (P : Platform) (getToken : M (option jsstring)) : M attempt :=
  await token <- getToken ;
  match token with
  | None => ret NoToken
  | Some t =>
      if negb (str_truthy t) then ret NoToken
      else
        await response <-
          Api.call_fetch P (Api.API_BASE_URL P ++ js "/api/dreams/history")
            (Some (history_init P t)) ;
        if negb (ok response) then
          await errorData <-
            try_catch (lift (json_body response)) (fun _ => ret (JObj [])) ;
          console_error (js "History API Error:") ;;
          await errorData_detail <- Api.get_field errorData (js "detail") ;
          match js_or errorData_detail
                  (Some (JStr (js "L" ++ [0x1ED7] ++ js "i "
                               ++ decimal (status response)))) with
          | None => ret (Failed [])
          | Some arg =>
              await message <- lift (Api.ToString P arg) ;
              ret (Failed message)
          end
        else
          await data <- lift (json_body response) ;
          ret (Loaded data)
  end.

(** [fetchHistory]; [message_of e] is the [message] property of a caught
    platform error, [user] tells whether a user is signed in. *)
Definition fetchHistory (P : Platform) (getToken : M (option jsstring))
    (message_of : thrown -> option jsstring) (user : bool) (st : History) : M History :=
  if negb user then ret st
  else
    let started :=
      {| dreams := dreams st; isLoadingHistory := true; historyError := None |} in
    await settled <-
      try_catch
        (await outcome <- try_fetchHistory P getToken ;
         match outcome with
         | Loaded data =>
             ret {| dreams := data; isLoadingHistory := true; historyError := None |}
         | NoToken =>
             ret {| dreams := dreams started; isLoadingHistory := true;
                    historyError := Some session_expired_text |}
         | Failed message =>
             console_error (js "Error fetching history:") ;;
             ret {| dreams := dreams started; isLoadingHistory := true;
                    historyError :=
                      Some (message_or (Some message) history_failed_text) |}
         end)
        (fun e =>
           console_error (js "Error fetching history:") ;;
           ret {| dreams := dreams started; isLoadingHistory := true;
                  historyError :=
                    Some (message_or (message_of e) history_failed_text) |}) ;
    ret {| dreams := dreams settled; isLoadingHistory := false;
           historyError := historyError settled |}.

(** The password form. *)
Record Passwords : Type := {
  current : jsstring;
  new : jsstring;
  confirm : jsstring;
}.

Inductive message_type : Type := success | failure.

Record PasswordState : Type := {
  passwords : Passwords;
  isChangingPassword : bool;
  passwordMessage : option (message_type * jsstring);
}.

(** "Mật khẩu xác nhận không khớp" *)
Definition mismatch_text : jsstring :=
  js "M" ++ [0x1EAD] ++ js "t kh" ++ [0x1EA9] ++ js "u x" ++ [0xE1]
  ++ js "c nh" ++ [0x1EAD] ++ js "n kh" ++ [0xF4] ++ js "ng kh" ++ [0x1EDB]
  ++ js "p".

(** "Mật khẩu mới phải có ít nhất 6 ký tự" *)
Definition too_short_text : jsstring :=
  js "M" ++ [0x1EAD] ++ js "t kh" ++ [0x1EA9] ++ js "u m" ++ [0x1EDB]
  ++ js "i ph" ++ [0x1EA3] ++ js "i c" ++ [0xF3] ++ js " " ++ [0xED]
  ++ js "t nh" ++ [0x1EA5] ++ js "t 6 k" ++ [0xFD] ++ js " t" ++ [0x1EF1].

(** "Đã đổi mật khẩu thành công!" *)
Definition changed_text : jsstring :=
  [0x110; 0xE3] ++ js " " ++ [0x111; 0x1ED5] ++ js "i m" ++ [0x1EAD]
  ++ js "t kh" ++ [0x1EA9] ++ js "u th" ++ [0xE0] ++ js "nh c" ++ [0xF4]
  ++ js "ng!".

(** "Không thể đổi mật khẩu" *)
Definition change_failed_text : jsstring :=
  js "Kh" ++ [0xF4] ++ js "ng th" ++ [0x1EC3] ++ js " " ++ [0x111; 0x1ED5]
  ++ js "i m" ++ [0x1EAD] ++ js "t kh" ++ [0x1EA9] ++ js "u".

(** [handleChangePassword]; [updateUser password] is the outcome of
    [supabase.auth.updateUser({ password })], the message of the error it
    reports or [None]. *)
Definition handleChangePassword
    (updateUser : jsstring -> completion thrown (option jsstring))
    (message_of : thrown -> option jsstring) (st : PasswordState) : M PasswordState :=
  let pw := passwords st in
  if negb (bool_decide (new pw = confirm pw)) then
    ret {| passwords := pw; isChangingPassword := isChangingPassword st;
           passwordMessage := Some (failure, mismatch_text) |}
  else if (length (new pw) <? 6)%nat then
    ret {| passwords := pw; isChangingPassword := isChangingPassword st;
           passwordMessage := Some (failure, too_short_text) |}
  else
    await settled <-
      try_catch
        (await reported <- lift (updateUser (new pw)) ;
         match reported with
         | Some text =>
             console_error (js "Error changing password:") ;;
             ret {| passwords := pw; isChangingPassword := true;
                    passwordMessage :=
                      Some (failure, message_or (Some text) change_failed_text) |}
         | None =>
             ret {| passwords := {| current := []; new := []; confirm := [] |};
                    isChangingPassword := true;
                    passwordMessage := Some (success, changed_text) |}
         end)
        (fun e =>
           console_error (js "Error changing password:") ;;
           ret {| passwords := pw; isChangingPassword := true;
                  passwordMessage :=
                    Some (failure, message_or (message_of e) change_failed_text) |}) ;
    ret {| passwords := passwords settled; isChangingPassword := false;
           passwordMessage := passwordMessage settled |}.

End ProfilePage.

(** ** Vocabulary of the statements and sample inputs *)

Import Hexagram.

(** The triple a trigram reference stands for when the component draws
    it: the all-solid default for [null], the table entry for a key. *)
Inductive denotes : slot -> list bool -> Prop :=
| denotes_null : denotes SNull [solid; solid; solid]
| denotes_key k a b c :
    TRIGRAM_LINES !! k = Some (a, b, c) -> denotes (SStr k) [a; b; c].

(** Thunder and Mountain, the two symbols the table draws alike. *)
Definition thunder_or_mountain (c : N) : Prop := c = sym_thunder \/ c = sym_mountain.

(** Two descriptions that differ only by exchanging Thunder and Mountain
    symbols, at any of their positions. *)
Definition exchanged : jsstring -> jsstring -> Prop :=
  Forall2 (fun a b => a = b \/ (thunder_or_mountain a /\ thunder_or_mountain b)).

(** A character test that accepts neither Thunder nor Mountain. *)
Definition blind (p : N -> bool) : Prop :=
  p sym_thunder = false /\ p sym_mountain = false.

(** "Thượng fire": an upper marker naming Fire, no lower marker. *)
Definition upper_fire_only : jsstring :=
  js "Th" ++ [0x1B0; 0x1EE3] ++ js "ng fire".

(** "Thượng Lửa": an upper marker naming Fire by its Vietnamese synonym. *)
Definition upper_lua : jsstring :=
  js "Th" ++ [0x1B0; 0x1EE3] ++ js "ng L" ++ [0x1EED] ++ js "a".

(** "Thượng constructor": an upper marker followed by a word that is not
    a trigram name. *)
Definition upper_constructor : jsstring :=
  js "Th" ++ [0x1B0; 0x1EE3] ++ js "ng constructor".

(** Earth, Water and Fire symbols in that order, with text around them. *)
Definition earth_water_fire : jsstring :=
  js "Que " ++ [sym_earth] ++ js " / " ++ [sym_water] ++ js " (" ++ [sym_fire] ++ js ")".

Import Api.

(** The value of header [k] in each request sent during a run, one entry
    per request. *)
Definition sent_header (log : list event) (k : jsstring) : list (option jsstring) :=
  List.map (fun r => match snd r with
                     | Some cfg => spread_opt (headers cfg) !! k
                     | None => None
                     end)
           (requests log).

(** A platform that answers every request with [answer]. *)
Definition sample_platform (secret : option jsstring)
    (session refresh : completion thrown AuthResponse)
    (answer : completion thrown Response) (clock : Z) : Platform :=
  {| NEXT_PUBLIC_API_URL := None;
     NEXT_PUBLIC_API_SECRET := secret;
     fetch := fun _ _ => answer;
     getSession := session;
     refreshSession := refresh;
     Date_now := clock;
     Number_toString := fun _ => js "NaN" |}.

Definition signed_out : completion thrown AuthResponse :=
  Normal {| data_session := None; error := None |}.

Definition signed_in (token : jsstring) (expiry : option Z) : completion thrown AuthResponse :=
  Normal {| data_session := Some {| access_token := token; expires_at := expiry |};
            error := None |}.

(** A 503 answer whose body is the JSON text [{"status":"unhealthy"}]. *)
Definition unhealthy : Response :=
  {| status := 503;
     statusText := js "Service Unavailable";
     json_body := Normal (JObj [(js "status", JStr (js "unhealthy"))]) |}.

(** A 502 answer whose body is not JSON. *)
Definition bad_gateway : Response :=
  {| status := 502;
     statusText := js "Bad Gateway";
     json_body := Throw (ThrownPlatform (js "SyntaxError")) |}.

(** A slot that holds a built-in inherited from [Object.prototype]. *)
Definition is_builtin (r : slot) : bool :=
  match r with SBuiltin _ => true | _ => false end.

(** The letter h in either case, which both marker words contain. *)
Definition is_letter_h (c : N) : bool := (c =? 104) || (c =? 72).

(** A slot filled by the parser: [null], a key of the line table, or an
    inherited built-in. *)
Inductive parsed_slot : slot -> Prop :=
| parsed_null : parsed_slot SNull
| parsed_key k : is_Some (TRIGRAM_LINES !! k) -> parsed_slot (SStr k)
| parsed_builtin k : inherited k = true -> parsed_slot (SBuiltin k).

(** The path each exposed call requests. *)
Definition endpoint (P : Platform) (c : call) : jsstring :=
  match c with
  | InterpretDream _ => js "/api/dreams/interpret"
  | AnalyzeDream _ => js "/api/dreams/analyze"
  | GetDreamHistory limit => js "/api/dreams/history?limit=" ++ Number_toString P limit
  | SearchSymbols _ => js "/api/dreams/search"
  | GetCommonSymbols => js "/api/dreams/symbols/common"
  | HealthCheck => js "/api/health"
  | AnalyzeTriangle _ => js "/api/dreams/triangle"
  end.

(** The number of session lookups during a run. *)
Fixpoint session_lookups (log : list event) : nat :=
  match log with
  | [] => 0%nat
  | EvGetSession :: rest => S (session_lookups rest)
  | _ :: rest => session_lookups rest
  end.

(** The structured error a failed response with this [errorData] yields,
    or the error its construction throws. *)
Definition failure_of (P : Platform) (resp : Response) : completion thrown json :=
  match fst (read_errorData resp []) with
  | Throw e => Throw e
  | Normal errorData =>
      match fst (new_ApiException P errorData []) with
      | Throw e => Throw e
      | Normal exception => Throw (ThrownApi exception)
      end
  end.

(** Whether a call tests [response.ok] before it returns the body: all do
    but the health check. *)
Definition checks_status (c : call) : bool :=
  match c with HealthCheck => false | _ => true end.

(** The console line [getAccessToken] logs on a failure, replaced by the
    line the context's [getToken] logs; every other event is kept. *)
Definition relabel_failure (ev : event) : event :=
  match ev with
  | EvConsoleError msg =>
      if bool_decide (msg = js "Error getting access token:")
      then EvConsoleError (js "Error getting token:")
      else ev
  | _ => ev
  end.

(** Expose the completion and the log of a computation. *)
Ltac run_M :=
  unfold try_catch, bind, emit, lift, ret, throw, console_log, console_error.

(** ** The hexagram decoder *)

Section HexagramFacts.

Lemma table_key_truthy (k : jsstring) (t : lines3) :
  TRIGRAM_LINES !! k = Some t -> str_truthy k = true.
Proof.
  destruct k as [|c k]; [|reflexivity].
  vm_compute. discriminate.
Qed.

Lemma reversed_lines_denotes (r : slot) (t : list bool) :
  denotes r t -> reversed_lines r = Normal (rev t).
Proof.
  destruct 1 as [|k a b c Hk].
  - reflexivity.
  - unfold reversed_lines, slot_truthy, lines_slice.
    rewrite (table_key_truthy _ _ Hk), Hk. reflexivity.
Qed.

Lemma denotes_length (r : slot) (t : list bool) : denotes r t -> length t = 3%nat.
Proof. destruct 1; reflexivity. Qed.

(** C1. For resolved trigram references (a table key, or [null] standing
    for the all-solid default) the line sequence has exactly 6 entries, the
    first 3 being the upper triple reversed and the last 3 the lower triple
    reversed; with both references [null] all 6 entries are solid. *)
Theorem line_sequence_layout (up lo : slot) (tu tl : list bool) :
  denotes up tu -> denotes lo tl ->
  exists seq,
    allLines up lo = Normal seq
    /\ length seq = 6%nat
    /\ firstn 3 seq = rev tu
    /\ skipn 3 seq = rev tl
    /\ (up = SNull -> lo = SNull -> seq = repeat solid 6).
Proof.
  intros Hu Hl. exists (rev tu ++ rev tl).
  unfold allLines.
  rewrite (reversed_lines_denotes _ _ Hu), (reversed_lines_denotes _ _ Hl).
  pose proof (denotes_length _ _ Hu) as Lu.
  pose proof (denotes_length _ _ Hl) as Ll.
  assert (length (rev tu) = 3%nat) as Lru by (rewrite length_rev; exact Lu).
  repeat split.
  - rewrite length_app, !length_rev, Lu, Ll. reflexivity.
  - rewrite <- Lru at 1. rewrite firstn_app, Nat.sub_diag, firstn_all. simpl.
    apply app_nil_r.
  - rewrite <- Lru at 1. rewrite skipn_app, Nat.sub_diag, skipn_all. reflexivity.
  - intros -> ->. inversion Hu; inversion Hl; subst. reflexivity.
Qed.

Lemma line_sequence_layout_witness :
  exists seq,
    allLines (SStr [sym_fire]) SNull = Normal seq
    /\ length seq = 6%nat
    /\ firstn 3 seq = rev [solid; broken; solid]
    /\ skipn 3 seq = rev [solid; solid; solid]
    /\ (SStr [sym_fire] = SNull -> SNull = SNull -> seq = repeat solid 6).
Proof.
  apply (line_sequence_layout (SStr [sym_fire]) SNull).
  - apply denotes_key. vm_compute. reflexivity.
  - apply denotes_null.
Defined.

Lemma filter_no_symbol (s : jsstring) :
  Forall (fun c => is_trigram_symbol c = false) s ->
  List.filter is_trigram_symbol s = [].
Proof.
  induction 1 as [|c s Hc _ IH]; simpl; [reflexivity|].
  rewrite Hc. exact IH.
Qed.

Lemma parse_first_two_matches (s : jsstring) (a b : N) (more : jsstring) :
  List.filter is_trigram_symbol s = a :: b :: more ->
  parseTrigramSymbols s = {| upper := SStr [a]; lower := SStr [b] |}.
Proof.
  intros H. unfold parseTrigramSymbols, match_symbols. rewrite H. reflexivity.
Qed.

Lemma first_symbol_split (s : jsstring) (b : N) (more : jsstring) :
  List.filter is_trigram_symbol s = b :: more ->
  exists mid rest,
    s = mid ++ b :: rest
    /\ Forall (fun c => is_trigram_symbol c = false) mid
    /\ is_trigram_symbol b = true
    /\ List.filter is_trigram_symbol rest = more.
Proof.
  induction s as [|c s IH]; simpl; [discriminate|].
  destruct (is_trigram_symbol c) eqn:Ec.
  - intros [= -> <-]. exists [], s. repeat split; auto.
  - intros H. destruct (IH H) as (mid & rest & -> & Hmid & Hb & Hrest).
    exists (c :: mid), rest. repeat split; auto.
Qed.

(** A description with at least two symbols splits around its first two. *)
Lemma first_two_symbols_split (s : jsstring) (a b : N) (more : jsstring) :
  List.filter is_trigram_symbol s = a :: b :: more ->
  exists pre mid rest,
    s = pre ++ a :: mid ++ b :: rest
    /\ Forall (fun c => is_trigram_symbol c = false) pre
    /\ Forall (fun c => is_trigram_symbol c = false) mid
    /\ is_trigram_symbol a = true
    /\ is_trigram_symbol b = true.
Proof.
  intros H.
  destruct (first_symbol_split s a (b :: more) H) as (pre & s1 & -> & Hpre & Ha & H1).
  destruct (first_symbol_split s1 b more H1) as (mid & rest & -> & Hmid & Hb & _).
  exists pre, mid, rest. repeat split; auto.
Qed.

(** Every canonical symbol is a key of the line table. *)
Lemma symbol_is_key (a : N) :
  is_trigram_symbol a = true -> is_Some (TRIGRAM_LINES !! [a]).
Proof.
  unfold is_trigram_symbol. intros H.
  apply andb_true_iff in H as [H1 H2].
  apply N.leb_le in H1, H2.
  assert (a = 0x2630 \/ a = 0x2631 \/ a = 0x2632 \/ a = 0x2633
          \/ a = 0x2634 \/ a = 0x2635 \/ a = 0x2636 \/ a = 0x2637) as Hcases by lia.
  repeat (destruct Hcases as [->|Hcases]); try subst a;
    vm_compute; eauto.
Qed.

(** C2. In a description with two or more canonical symbols the first in
    order of appearance becomes [upper] and the second [lower]; whatever
    follows the second symbol, further symbols included, does not change
    the result. *)
Theorem first_two_symbols_selected (pre mid rest : jsstring) (a b : N) :
  Forall (fun c => is_trigram_symbol c = false) pre ->
  Forall (fun c => is_trigram_symbol c = false) mid ->
  is_trigram_symbol a = true ->
  is_trigram_symbol b = true ->
  parseTrigramSymbols (pre ++ a :: mid ++ b :: rest)
    = {| upper := SStr [a]; lower := SStr [b] |}
  /\ forall rest',
       parseTrigramSymbols (pre ++ a :: mid ++ b :: rest')
       = parseTrigramSymbols (pre ++ a :: mid ++ b :: rest).
Proof.
  intros Hpre Hmid Ha Hb.
  assert (forall r, parseTrigramSymbols (pre ++ a :: mid ++ b :: r)
                    = {| upper := SStr [a]; lower := SStr [b] |}) as Hall.
  { intros r.
    apply (parse_first_two_matches _ a b (List.filter is_trigram_symbol r)).
    rewrite List.filter_app, (filter_no_symbol pre Hpre). simpl. rewrite Ha.
    rewrite List.filter_app, (filter_no_symbol mid Hmid). simpl. rewrite Hb.
    reflexivity. }
  split; [apply Hall|].
  intros rest'. rewrite !Hall. reflexivity.
Qed.

Lemma first_two_symbols_selected_witness :
  parseTrigramSymbols earth_water_fire
    = {| upper := SStr [sym_earth]; lower := SStr [sym_water] |}
  /\ forall rest',
       parseTrigramSymbols (js "Que " ++ sym_earth :: js " / " ++ sym_water :: rest')
       = parseTrigramSymbols earth_water_fire.
Proof.
  apply (first_two_symbols_selected (js "Que ") (js " / ")
           (js " (" ++ [sym_fire] ++ js ")") sym_earth sym_water).
  - vm_compute. repeat constructor.
  - vm_compute. repeat constructor.
  - reflexivity.
  - reflexivity.
Defined.

(** *** Name matching *)

Lemma fallback_when_fewer_than_two (s : jsstring) :
  (length (List.filter is_trigram_symbol s) < 2)%nat ->
  parseTrigramSymbols s
  = {| upper := resolve (match_marker marker_upper s);
       lower := resolve (match_marker marker_lower s) |}.
Proof.
  intros H. unfold parseTrigramSymbols, match_symbols.
  destruct (List.filter is_trigram_symbol s) as [|a [|b more]];
    simpl in *; [reflexivity | reflexivity | lia].
Qed.

Lemma resolve_absent : resolve None = SNull.
Proof. reflexivity. Qed.

Lemma resolve_unknown (cap : jsstring) :
  TRIGRAM_NAMES !! toLowerCase cap = None ->
  inherited (toLowerCase cap) = false ->
  resolve (Some cap) = SNull.
Proof.
  intros Hown Hinh. unfold resolve, lookup_name. rewrite Hown, Hinh.
  destruct (str_truthy (toLowerCase cap)); reflexivity.
Qed.

Lemma upper_fire_only_parsed :
  parseTrigramSymbols upper_fire_only
  = {| upper := SStr [sym_fire]; lower := SNull |}.
Proof. vm_compute. reflexivity. Qed.

(** The name group stops at the first letter outside [[A-Za-z0-9_]]. *)
Lemma upper_lua_captured :
  match_marker marker_upper upper_lua = Some (js "L").
Proof. vm_compute. reflexivity. Qed.

(** C3, evaluated on two descriptions that have an upper marker and no
    symbol.  In "Thượng Lửa" the marker names Fire by a key of the synonym
    table, yet the upper slot is [null]: the name group holds only the
    letter before the accented one.  In "Thượng constructor" the name word
    is no key of the table, yet the upper slot is not [null]: the lookup
    reaches the [constructor] property every object inherits, and drawing
    the result throws. *)
Theorem name_matching_defects :
  (TRIGRAM_NAMES !! (js "l" ++ [0x1EED] ++ js "a") = Some [sym_fire]
   /\ parseTrigramSymbols upper_lua = {| upper := SNull; lower := SNull |})
  /\ (TRIGRAM_NAMES !! js "constructor" = None
      /\ parseTrigramSymbols upper_constructor
         = {| upper := SBuiltin (js "constructor"); lower := SNull |}
      /\ HexagramVisual_allLines upper_constructor = Throw TypeError).
Proof. vm_compute. repeat split; reflexivity. Qed.

(** *** Thunder and Mountain *)

Lemma blind_agrees (p : N -> bool) (a b : N) :
  blind p ->
  a = b \/ (thunder_or_mountain a /\ thunder_or_mountain b) ->
  p a = p b.
Proof.
  intros [Ht Hm] [->|[[->| ->] [->| ->]]]; congruence.
Qed.

Lemma span_exchanged (p : N -> bool) (s s' : jsstring) :
  blind p -> exchanged s s' ->
  fst (span p s) = fst (span p s')
  /\ exchanged (snd (span p s)) (snd (span p s')).
Proof.
  intros Hp H. induction H as [|a b s s' Hab Hs [IH1 IH2]]; simpl.
  - split; [reflexivity | constructor].
  - rewrite <- (blind_agrees p a b Hp Hab).
    destruct (p a) eqn:Ea.
    + destruct (span p s) as [run rest], (span p s') as [run' rest'].
      simpl in *. split; [|exact IH2].
      destruct Hab as [->|[Ha _]]; [congruence|].
      destruct Hp as [Ht Hm]. destruct Ha as [->| ->]; congruence.
    + simpl. split; [reflexivity | constructor; assumption].
Qed.

Lemma match_literal_exchanged (lit : list (N -> bool)) (s s' : jsstring) :
  Forall blind lit -> exchanged s s' ->
  option_Forall2 exchanged (match_literal lit s) (match_literal lit s').
Proof.
  intros Hlit. revert s s'.
  induction Hlit as [|p lit Hp _ IH]; intros s s' H; simpl.
  - constructor. exact H.
  - destruct H as [|a b s s' Hab Hs]; [constructor|].
    rewrite <- (blind_agrees p a b Hp Hab).
    destruct (p a); [apply IH; exact Hs | constructor].
Qed.

Lemma blind_space : blind is_space.
Proof. split; reflexivity. Qed.

Lemma blind_word : blind is_word.
Proof. split; reflexivity. Qed.

Lemma match_here_exchanged (lit : list (N -> bool)) (s s' : jsstring) :
  Forall blind lit -> exchanged s s' ->
  match_here lit s = match_here lit s'.
Proof.
  intros Hlit H. unfold match_here.
  destruct (match_literal_exchanged lit s s' Hlit H) as [r r' Hr|]; [|reflexivity].
  destruct (span_exchanged is_space r r' blind_space Hr) as [E1 E2].
  destruct (span is_space r) as [sp rest], (span is_space r') as [sp' rest'].
  simpl in *. subst sp'. destruct sp; [reflexivity|].
  destruct (span_exchanged is_word rest rest' blind_word E2) as [E3 _].
  destruct (span is_word rest) as [w x], (span is_word rest') as [w' x'].
  simpl in *. subst w'. reflexivity.
Qed.

Lemma match_marker_exchanged (lit : list (N -> bool)) (s s' : jsstring) :
  Forall blind lit -> exchanged s s' ->
  match_marker lit s = match_marker lit s'.
Proof.
  intros Hlit H. induction H as [|a b s s' Hab Hs IH].
  - reflexivity.
  - simpl.
    assert (exchanged (a :: s) (b :: s')) as Hcons by (constructor; assumption).
    rewrite (match_here_exchanged lit (a :: s) (b :: s') Hlit Hcons).
    rewrite IH. reflexivity.
Qed.

Lemma blind_marker_upper : Forall blind marker_upper.
Proof. repeat constructor. Qed.

Lemma blind_marker_lower : Forall blind marker_lower.
Proof. repeat constructor. Qed.

Lemma filter_exchanged (s s' : jsstring) :
  exchanged s s' ->
  exchanged (List.filter is_trigram_symbol s) (List.filter is_trigram_symbol s').
Proof.
  induction 1 as [|a b s s' Hab Hs IH]; simpl; [constructor|].
  assert (is_trigram_symbol a = is_trigram_symbol b) as E.
  { destruct Hab as [->|[[->| ->] [->| ->]]]; reflexivity. }
  rewrite <- E. destruct (is_trigram_symbol a); [constructor; assumption | exact IH].
Qed.

Lemma reversed_lines_exchanged (a b : N) :
  a = b \/ (thunder_or_mountain a /\ thunder_or_mountain b) ->
  reversed_lines (SStr [a]) = reversed_lines (SStr [b]).
Proof.
  intros [->|[[->| ->] [->| ->]]]; reflexivity.
Qed.

(** C4. The table gives Thunder and Mountain the same triple, broken,
    broken, solid; so two descriptions that differ only by exchanging these
    two symbols are drawn with the same line sequence. *)
Theorem thunder_mountain_indistinguishable (s s' : jsstring) :
  exchanged s s' ->
  TRIGRAM_LINES !! [sym_thunder] = Some (broken, broken, solid)
  /\ TRIGRAM_LINES !! [sym_mountain] = Some (broken, broken, solid)
  /\ HexagramVisual_allLines s = HexagramVisual_allLines s'.
Proof.
  intros H. split; [reflexivity|]. split; [reflexivity|].
  unfold HexagramVisual_allLines, parseTrigramSymbols, match_symbols.
  rewrite (match_marker_exchanged marker_upper s s' blind_marker_upper H).
  rewrite (match_marker_exchanged marker_lower s s' blind_marker_lower H).
  destruct (filter_exchanged s s' H) as [|a a' f f' Ha Hf]; [reflexivity|].
  destruct Hf as [|b b' g g' Hb Hg]; [reflexivity|].
  simpl. unfold allLines.
  rewrite (reversed_lines_exchanged a a' Ha), (reversed_lines_exchanged b b' Hb).
  reflexivity.
Qed.

Lemma thunder_mountain_indistinguishable_witness :
  TRIGRAM_LINES !! [sym_thunder] = Some (broken, broken, solid)
  /\ TRIGRAM_LINES !! [sym_mountain] = Some (broken, broken, solid)
  /\ HexagramVisual_allLines ([sym_thunder] ++ js " over " ++ [sym_water])
     = HexagramVisual_allLines ([sym_mountain] ++ js " over " ++ [sym_water]).
Proof.
  apply (thunder_mountain_indistinguishable
           ([sym_thunder] ++ js " over " ++ [sym_water])
           ([sym_mountain] ++ js " over " ++ [sym_water])).
  unfold exchanged. simpl.
  constructor; [right; split; [left | right]; reflexivity |].
  repeat (constructor; [left; reflexivity |]).
  constructor.
Defined.

End HexagramFacts.

(** ** The API gateway client *)

Section ApiFacts.

Lemma getAccessToken_total (P : Platform) (log : list event) :
  exists tok log', Supabase.getAccessToken P log = (Normal tok, log').
Proof.
  unfold Supabase.getAccessToken; run_M.
  destruct (getSession P) as [r|e]; simpl; eauto.
Qed.

Lemma read_errorData_total (resp : Response) (log : list event) :
  exists err, read_errorData resp log = (Normal err, log)
              /\ status_code err = status resp.
Proof.
  unfold read_errorData, get_field; run_M.
  destruct (json_body resp) as [j|e]; simpl; [|eauto].
  destruct j; simpl; eauto.
Qed.

Lemma read_errorData_unparsable (resp : Response) (e : thrown) (log : list event) :
  json_body resp = Throw e ->
  read_errorData resp log
  = (Normal {| err_error :=
                 Some (JStr (js "HTTP " ++ decimal (status resp) ++ js ": "
                             ++ statusText resp));
               status_code := status resp;
               err_detail := None |}, log).
Proof.
  intros H. unfold read_errorData; run_M. rewrite H. reflexivity.
Qed.

Lemma new_ApiException_statusCode (P : Platform) (err : ApiError)
    (log log' : list event) (exc : ApiException) :
  new_ApiException P err log = (Normal exc, log') ->
  statusCode exc = status_code err /\ log' = log.
Proof.
  unfold new_ApiException, bind, lift, ret.
  destruct (js_or _ _) as [arg|].
  - destruct (ToString P arg); intros [= <- <-]; auto.
  - intros [= <- <-]; auto.
Qed.

Lemma new_ApiException_outcome (P : Platform) (err : ApiError) (log : list event) :
  (exists exc, new_ApiException P err log = (Normal exc, log)
               /\ statusCode exc = status_code err)
  \/ exists e, new_ApiException P err log = (Throw e, log).
Proof.
  unfold new_ApiException, bind, lift, ret.
  destruct (js_or _ _) as [arg|].
  - destruct (ToString P arg); [left | right]; eauto.
  - left; eauto.
Qed.

Lemma new_ApiException_synthesized (P : Platform) (msg : jsstring) (st : N)
    (log : list event) :
  str_truthy msg = true ->
  new_ApiException P {| err_error := Some (JStr msg); status_code := st;
                        err_detail := None |} log
  = (Normal {| message := msg; name := js "ApiException";
               statusCode := st; detail := None |}, log).
Proof.
  intros H. unfold new_ApiException, js_or, truthy. simpl. rewrite H. simpl.
  rewrite H. reflexivity.
Qed.

(** The message synthesized when the error body cannot be read. *)
Lemma synthesized_message_truthy (resp : Response) :
  str_truthy (js "HTTP " ++ decimal (status resp) ++ js ": " ++ statusText resp)
  = true.
Proof. reflexivity. Qed.

(** C7. When a non-2xx response has a body that does not parse as JSON,
    both wrappers throw the structured error whose message is "HTTP",
    the status and the status text, and whose status code is the status of
    the response; the parse failure itself does not escape. *)
Theorem unparsable_error_body (P : Platform) (endpoint : jsstring)
    (options : RequestInit) (resp : Response) (e : thrown) (log : list event) :
  (forall init, fetch P (API_BASE_URL P ++ endpoint) init = Normal resp) ->
  ok resp = false ->
  json_body resp = Throw e ->
  let exc := {| message := js "HTTP " ++ decimal (status resp) ++ js ": "
                           ++ statusText resp;
                name := js "ApiException";
                statusCode := status resp;
                detail := None |} in
  fst (apiFetch P endpoint options log) = Throw (ThrownApi exc)
  /\ fst (apiFetchWithAuth P endpoint options log) = Throw (ThrownApi exc).
Proof.
  intros Hfetch Hok Hbody exc. split.
  - unfold apiFetch, call_fetch, bind, emit, lift, throw.
    rewrite Hfetch, Hok. simpl.
    rewrite (read_errorData_unparsable resp e _ Hbody).
    rewrite (new_ApiException_synthesized P _ _ _ (synthesized_message_truthy resp)).
    reflexivity.
  - unfold apiFetchWithAuth.
    destruct (getAccessToken_total P log) as (tok & log' & Htok).
    unfold bind at 1. rewrite Htok.
    unfold call_fetch, bind, emit, lift, throw, console_error, ret.
    rewrite Hfetch, Hok. simpl.
    rewrite (read_errorData_unparsable resp e _ Hbody).
    rewrite (new_ApiException_synthesized P _ _ _ (synthesized_message_truthy resp)).
    fold exc.
    destruct (isApiKeyError exc), (isAuthError exc), (isRateLimitError exc);
      reflexivity.
Qed.

Lemma unparsable_error_body_witness :
  let P := sample_platform None signed_out signed_out (Normal bad_gateway) 0 in
  let exc := {| message := js "HTTP 502: Bad Gateway";
                name := js "ApiException";
                statusCode := 502;
                detail := None |} in
  fst (apiFetch P (js "/api/dreams/search") (POST (js "{}")) [])
  = Throw (ThrownApi exc)
  /\ fst (apiFetchWithAuth P (js "/api/dreams/analyze") (POST (js "{}")) [])
     = Throw (ThrownApi exc).
Proof.
  split.
  - refine (proj1 (unparsable_error_body
                     (sample_platform None signed_out signed_out (Normal bad_gateway) 0)
                     (js "/api/dreams/search") (POST (js "{}")) bad_gateway
                     (ThrownPlatform (js "SyntaxError")) [] _ _ _)).
    + intros init. reflexivity.
    + reflexivity.
    + reflexivity.
  - refine (proj2 (unparsable_error_body
                     (sample_platform None signed_out signed_out (Normal bad_gateway) 0)
                     (js "/api/dreams/analyze") (POST (js "{}")) bad_gateway
                     (ThrownPlatform (js "SyntaxError")) [] _ _ _)).
    + intros init. reflexivity.
    + reflexivity.
    + reflexivity.
Defined.

(** *** Failed responses *)

(** Both wrappers turn a non-2xx response into a throw: the structured
    error with the status of the response, or the [TypeError] of a message
    that cannot be converted to a string. *)
Lemma apiFetch_failure (P : Platform) (endpoint : jsstring)
    (options : RequestInit) (resp : Response) (log : list event) :
  (forall init, fetch P (API_BASE_URL P ++ endpoint) init = Normal resp) ->
  ok resp = false ->
  (exists exc, fst (apiFetch P endpoint options log) = Throw (ThrownApi exc)
               /\ statusCode exc = status resp)
  \/ exists e, fst (apiFetch P endpoint options log) = Throw e.
Proof.
  intros Hfetch Hok.
  unfold apiFetch, call_fetch, bind, emit, lift, throw.
  rewrite Hfetch, Hok. simpl.
  destruct (read_errorData_total resp (log ++ [EvFetch (API_BASE_URL P ++ endpoint)
      (Some (with_headers options
               (spread (buildBaseHeaders P) (spread_opt (headers options)))))]))
    as (err & -> & Hst).
  destruct (new_ApiException_outcome P err (log ++ [EvFetch (API_BASE_URL P ++ endpoint)
      (Some (with_headers options
               (spread (buildBaseHeaders P) (spread_opt (headers options)))))]))
    as [(exc & -> & Hexc)|(e & ->)].
  - left. exists exc. split; [reflexivity | congruence].
  - right. exists e. reflexivity.
Qed.

Lemma apiFetchWithAuth_failure (P : Platform) (endpoint : jsstring)
    (options : RequestInit) (resp : Response) (log : list event) :
  (forall init, fetch P (API_BASE_URL P ++ endpoint) init = Normal resp) ->
  ok resp = false ->
  (exists exc, fst (apiFetchWithAuth P endpoint options log) = Throw (ThrownApi exc)
               /\ statusCode exc = status resp)
  \/ exists e, fst (apiFetchWithAuth P endpoint options log) = Throw e.
Proof.
  intros Hfetch Hok.
  destruct (getAccessToken_total P log) as (tok & log' & Htok).
  unfold apiFetchWithAuth, call_fetch, bind, emit, lift, throw, console_error, ret.
  rewrite Htok, Hfetch, Hok. simpl.
  match goal with
  | |- context [read_errorData resp ?l] =>
      destruct (read_errorData_total resp l) as (err & Herr & Hst);
      rewrite Herr;
      destruct (new_ApiException_outcome P err l) as [(exc & Hexc & Hcode)|(e & Hexc)];
      rewrite Hexc
  end.
  - left. exists exc. split; [|congruence].
    destruct (isApiKeyError exc), (isAuthError exc), (isRateLimitError exc);
      reflexivity.
  - right. exists e. reflexivity.
Qed.

(** Every call but the health check throws on a non-2xx response. *)
Lemma wrapped_calls_throw_on_failure (P : Platform) (c : call)
    (resp : Response) (log : list event) :
  c <> HealthCheck ->
  (forall url init, fetch P url init = Normal resp) ->
  ok resp = false ->
  exists e, fst (dreamApi P c log) = Throw e.
Proof.
  intros Hc Hfetch Hok.
  destruct c; simpl; try congruence;
    unfold interpretDream, analyzeDream, getDreamHistory, searchSymbols,
      getCommonSymbols, analyzeTriangle;
    match goal with
    | |- exists e, fst (apiFetch P ?ep ?o log) = Throw e =>
        destruct (apiFetch_failure P ep o resp log (Hfetch _) Hok)
          as [(exc & -> & _)|(e & ->)]; eauto
    | |- exists e, fst (apiFetchWithAuth P ?ep ?o log) = Throw e =>
        destruct (apiFetchWithAuth_failure P ep o resp log (Hfetch _) Hok)
          as [(exc & -> & _)|(e & ->)]; eauto
    end.
Qed.

Lemma healthCheck_ignores_status (P : Platform) (resp : Response) (v : json)
    (log : list event) :
  fetch P (API_BASE_URL P ++ js "/api/health") None = Normal resp ->
  json_body resp = Normal v ->
  fst (healthCheck P log) = Normal v.
Proof.
  intros Hfetch Hbody. unfold healthCheck, call_fetch, bind, emit, lift.
  rewrite Hfetch. simpl. rewrite Hbody. reflexivity.
Qed.

(** C8, evaluated on a 503 answer with a JSON body.  The health check
    does not test [response.ok]: it returns the parsed body to the caller,
    where the wrappers used by the other calls throw. *)
Theorem health_check_returns_on_failure :
  let P := sample_platform None signed_out signed_out (Normal unhealthy) 0 in
  ok unhealthy = false
  /\ dreamApi P HealthCheck []
     = (Normal (JObj [(js "status", JStr (js "unhealthy"))]),
        [EvFetch (js "http://localhost:8000/api/health") None])
  /\ exists exc, fst (dreamApi P GetCommonSymbols []) = Throw (ThrownApi exc)
                 /\ statusCode exc = 503.
Proof.
  split; [reflexivity|]. split; [reflexivity|].
  eexists. split; [vm_compute; reflexivity | reflexivity].
Qed.

(** *** Header assembly *)

Lemma requests_app (l1 l2 : list event) :
  requests (l1 ++ l2) = requests l1 ++ requests l2.
Proof.
  induction l1 as [|ev l1 IH]; simpl; [reflexivity|].
  destruct ev; simpl; rewrite IH; reflexivity.
Qed.

Lemma getAccessToken_requests (P : Platform) (log : list event) :
  requests (snd (Supabase.getAccessToken P log)) = requests log.
Proof.
  unfold Supabase.getAccessToken; run_M.
  destruct (getSession P) as [r|e]; simpl;
    rewrite ?requests_app; simpl; rewrite ?app_nil_r; reflexivity.
Qed.

(** The authenticated wrapper sends exactly one request, whose headers are
    the base headers, the bearer entry of the token it obtained, and the
    caller's own headers, later ones winning. *)
Lemma apiFetchWithAuth_requests (P : Platform) (endpoint : jsstring)
    (options : RequestInit) (tok : option jsstring) (log' : list event) :
  Supabase.getAccessToken P [] = (Normal tok, log') ->
  requests (snd (apiFetchWithAuth P endpoint options []))
  = [ (API_BASE_URL P ++ endpoint,
       Some (with_headers options
               (spread (spread (buildBaseHeaders P) (bearer tok))
                       (spread_opt (headers options))))) ].
Proof.
  intros Htok.
  pose proof (getAccessToken_requests P []) as Hreq. rewrite Htok in Hreq.
  simpl in Hreq.
  unfold apiFetchWithAuth. unfold bind at 1. rewrite Htok.
  set (cfg := with_headers options _).
  unfold call_fetch, bind, emit, lift, throw, console_error, ret.
  set (log1 := log' ++ [EvFetch (API_BASE_URL P ++ endpoint) (Some cfg)]).
  assert (requests log1 = [(API_BASE_URL P ++ endpoint, Some cfg)]) as H1.
  { unfold log1. rewrite requests_app, Hreq. reflexivity. }
  destruct (fetch P (API_BASE_URL P ++ endpoint) (Some cfg)) as [resp|e];
    [|exact H1].
  destruct (ok resp); simpl.
  - destruct (json_body resp); exact H1.
  - destruct (read_errorData_total resp log1) as (err & -> & _).
    destruct (new_ApiException_outcome P err log1) as [(exc & -> & _)|(e & ->)];
      [|exact H1].
    destruct (isApiKeyError exc), (isAuthError exc), (isRateLimitError exc);
      simpl; rewrite ?requests_app, H1; reflexivity.
Qed.

Lemma authenticated_call_requests (P : Platform) (c : call)
    (tok : option jsstring) (log' : list event) :
  authenticated c = true ->
  Supabase.getAccessToken P [] = (Normal tok, log') ->
  exists url options,
    headers options = None
    /\ requests (snd (dreamApi P c []))
       = [ (url, Some (with_headers options
                         (spread (spread (buildBaseHeaders P) (bearer tok)) ∅))) ].
Proof.
  intros Hc Htok.
  destruct c; try discriminate Hc; simpl;
    unfold analyzeDream, getDreamHistory;
    rewrite (apiFetchWithAuth_requests P _ _ tok log' Htok);
    eexists _, _; (split; [|reflexivity]); reflexivity.
Qed.

Lemma base_header_content_type (P : Platform) :
  buildBaseHeaders P !! js "Content-Type" = Some (js "application/json").
Proof.
  unfold buildBaseHeaders. destruct (str_truthy (API_SECRET_KEY P)).
  - rewrite lookup_insert_ne by discriminate. apply lookup_singleton_eq.
  - apply lookup_singleton_eq.
Qed.

Lemma base_header_api_key (P : Platform) :
  buildBaseHeaders P !! js "X-API-Key"
  = if str_truthy (API_SECRET_KEY P) then Some (API_SECRET_KEY P) else None.
Proof.
  unfold buildBaseHeaders. destruct (str_truthy (API_SECRET_KEY P)).
  - apply lookup_insert_eq.
  - apply lookup_singleton_ne. discriminate.
Qed.

Lemma base_header_authorization (P : Platform) :
  buildBaseHeaders P !! js "Authorization" = None.
Proof.
  unfold buildBaseHeaders. destruct (str_truthy (API_SECRET_KEY P)).
  - rewrite lookup_insert_ne by discriminate. apply lookup_singleton_ne. discriminate.
  - apply lookup_singleton_ne. discriminate.
Qed.

Lemma bearer_lookup (tok : option jsstring) (k : jsstring) :
  bearer tok !! k
  = match tok with
    | Some t => if str_truthy t && bool_decide (k = js "Authorization")
                then Some (js "Bearer " ++ t) else None
    | None => None
    end.
Proof.
  unfold bearer. destruct tok as [t|]; [|apply lookup_empty].
  destruct (str_truthy t); simpl; [|apply lookup_empty].
  case_bool_decide as Hk.
  - subst k. apply lookup_singleton_eq.
  - apply lookup_singleton_ne. congruence.
Qed.

Lemma assembled_lookup (P : Platform) (tok : option jsstring) (k : jsstring) :
  spread (spread (buildBaseHeaders P) (bearer tok)) ∅ !! k
  = match bearer tok !! k with
    | Some v => Some v
    | None => buildBaseHeaders P !! k
    end.
Proof.
  unfold spread. rewrite (left_id_L ∅ (∪)). rewrite lookup_union.
  destruct (bearer tok !! k), (buildBaseHeaders P !! k); reflexivity.
Qed.

Lemma authenticated_call_header (P : Platform) (c : call)
    (tok : option jsstring) (log' : list event) (k : jsstring) :
  authenticated c = true ->
  Supabase.getAccessToken P [] = (Normal tok, log') ->
  sent_header (snd (dreamApi P c [])) k
  = [ match bearer tok !! k with
      | Some v => Some v
      | None => buildBaseHeaders P !! k
      end ].
Proof.
  intros Hc Htok.
  destruct (authenticated_call_requests P c tok log' Hc Htok)
    as (url & options & _ & Hreq).
  unfold sent_header. rewrite Hreq. simpl.
  rewrite assembled_lookup. reflexivity.
Qed.

(** C5. An authenticated call sends one request.  It carries
    [Content-Type: application/json] and, when the client key is
    non-empty, [X-API-Key] with that key.  It has no [Authorization] entry
    when the token source returns [null], and [Authorization: Bearer
    <token>] when it returns a token; the empty string, which the code
    tests as it tests [null], counts as no token. *)
Theorem authenticated_request_headers (P : Platform) (c : call)
    (tok : option jsstring) (log' : list event) :
  authenticated c = true ->
  Supabase.getAccessToken P [] = (Normal tok, log') ->
  let sent := sent_header (snd (dreamApi P c [])) in
  sent (js "Content-Type") = [Some (js "application/json")]
  /\ (str_truthy (API_SECRET_KEY P) = true ->
      sent (js "X-API-Key") = [Some (API_SECRET_KEY P)])
  /\ (tok = None -> sent (js "Authorization") = [None])
  /\ (tok = Some [] -> sent (js "Authorization") = [None])
  /\ (forall t, tok = Some t -> t <> [] ->
      sent (js "Authorization") = [Some (js "Bearer " ++ t)]).
Proof.
  intros Hc Htok sent. unfold sent.
  rewrite !(authenticated_call_header P c tok log' _ Hc Htok).
  rewrite !bearer_lookup, base_header_content_type, base_header_api_key,
    base_header_authorization.
  split; [|split; [|split; [|split]]].
  - destruct tok as [t|]; [|reflexivity].
    rewrite bool_decide_eq_false_2 by discriminate.
    rewrite andb_false_r. reflexivity.
  - intros ->. destruct tok as [t|]; [|reflexivity].
    rewrite bool_decide_eq_false_2 by discriminate.
    rewrite andb_false_r. reflexivity.
  - intros ->. reflexivity.
  - intros ->. reflexivity.
  - intros t -> Ht. destruct t as [|ch t]; [congruence|]. reflexivity.
Qed.

Lemma authenticated_request_headers_witness :
  let P := sample_platform (Some (js "client-key"))
             (signed_in (js "jwt") (Some 1700003600%Z)) signed_out
             (Normal unhealthy) 1700000000000 in
  let sent := sent_header (snd (dreamApi P (GetDreamHistory 10%float) [])) in
  sent (js "Content-Type") = [Some (js "application/json")]
  /\ sent (js "X-API-Key") = [Some (js "client-key")]
  /\ sent (js "Authorization") = [Some (js "Bearer jwt")].
Proof.
  intros P sent.
  destruct (authenticated_request_headers P (GetDreamHistory 10%float)
              (Some (js "jwt")) [EvGetSession] eq_refl eq_refl)
    as (Hct & Hkey & _ & _ & Hauth).
  split; [exact Hct|]. split; [exact (Hkey eq_refl)|].
  apply (Hauth (js "jwt") eq_refl). discriminate.
Defined.

(** C10. [getAccessToken] completes normally whatever the session lookup
    does, with a token or [null]; when the lookup throws it returns [null],
    and an authenticated call still sends its request, without an
    [Authorization] entry. *)
Theorem token_source_never_throws (P : Platform) (log : list event) :
  (exists tok log', Supabase.getAccessToken P log = (Normal tok, log'))
  /\ (forall e, getSession P = Throw e ->
        fst (Supabase.getAccessToken P log) = Normal None
        /\ forall c, authenticated c = true ->
             exists url init,
               requests (snd (dreamApi P c [])) = [(url, init)]
               /\ sent_header (snd (dreamApi P c [])) (js "Authorization")
                  = [None]).
Proof.
  split; [apply getAccessToken_total|].
  intros e He. split.
  - unfold Supabase.getAccessToken, try_catch, bind, emit, lift, ret, console_error.
    rewrite He. reflexivity.
  - intros c Hc.
    assert (exists l, Supabase.getAccessToken P [] = (Normal None, l)) as [l Hl].
    { unfold Supabase.getAccessToken; run_M. rewrite He. simpl. eauto. }
    destruct (authenticated_call_requests P c None l Hc Hl)
      as (url & options & _ & Hreq).
    exists url, (Some (with_headers options
                         (spread (spread (buildBaseHeaders P) (bearer None)) ∅))).
    split; [exact Hreq|].
    rewrite (authenticated_call_header P c None l _ Hc Hl).
    rewrite bearer_lookup, base_header_authorization. reflexivity.
Qed.

Lemma token_source_never_throws_witness :
  let P := sample_platform (Some (js "client-key"))
             (Throw (ThrownPlatform (js "storage unavailable"))) signed_out
             (Normal unhealthy) 0 in
  fst (Supabase.getAccessToken P []) = Normal None
  /\ sent_header (snd (dreamApi P (AnalyzeDream (js "{}")) []))
       (js "Authorization") = [None].
Proof.
  intros P.
  destruct (proj2 (token_source_never_throws P [])
              (ThrownPlatform (js "storage unavailable")) eq_refl)
    as [Hnull Hcalls].
  split; [exact Hnull|].
  destruct (Hcalls (AnalyzeDream (js "{}")) eq_refl) as (url & init & _ & Hsent).
  exact Hsent.
Defined.

End ApiFacts.

(** ** Token retrieval of the auth context *)

Section AuthFacts.

Import Auth.
Local Open Scope Z_scope.

(** What [getToken] returns after a refresh: the refreshed access token,
    or [null] when the refresh threw, reported an error or gave no
    session. *)
Lemma getToken_refreshing (P : Platform) (s : Session) (e : Z) :
  getSession P = Normal {| data_session := Some s; error := None |} ->
  expires_at s = Some e ->
  expiring_soon P (Some e) = true ->
  refreshes (snd (getToken P [])) = 1%nat
  /\ fst (getToken P [])
     = Normal match refreshSession P with
              | Normal r =>
                  match error r, data_session r with
                  | None, Some refreshed => Some (access_token refreshed)
                  | _, _ => None
                  end
              | Throw _ => None
              end.
Proof.
  intros Hs He Hsoon.
  unfold getToken; run_M.
  rewrite Hs. simpl. rewrite He, Hsoon. simpl.
  destruct (refreshSession P) as [r|x]; simpl; [|auto].
  destruct (error r), (data_session r); simpl; auto.
Qed.

Lemma getToken_current (P : Platform) (s : Session) :
  getSession P = Normal {| data_session := Some s; error := None |} ->
  expiring_soon P (expires_at s) = false ->
  refreshes (snd (getToken P [])) = 0%nat
  /\ fst (getToken P []) = Normal (Some (access_token s)).
Proof.
  intros Hs Hsoon.
  unfold getToken; run_M.
  rewrite Hs. simpl. rewrite Hsoon. simpl. auto.
Qed.

(** C9, with the clock the provider uses.  With an active session whose
    declared expiry is less than 60 seconds after the current time in
    whole seconds, [Math.floor(Date.now() / 1000)], [getToken] refreshes
    once and returns the refreshed token, or [null] if the refresh fails;
    with 60 seconds or more left by that clock it returns the current
    token without refreshing; with no session it returns [null].  An
    expiry of 0, which no provider issues and which the truthiness test
    takes for an absent one, is outside the statement. *)
Theorem token_retrieval (P : Platform) (r : AuthResponse) :
  getSession P = Normal r ->
  (forall s e,
      error r = None -> data_session r = Some s -> expires_at s = Some e ->
      e <> 0 -> e - now P < 60 ->
      refreshes (snd (getToken P [])) = 1%nat
      /\ fst (getToken P [])
         = Normal match refreshSession P with
                  | Normal r' =>
                      match error r', data_session r' with
                      | None, Some refreshed => Some (access_token refreshed)
                      | _, _ => None
                      end
                  | Throw _ => None
                  end)
  /\ (forall s e,
        error r = None -> data_session r = Some s -> expires_at s = Some e ->
        60 <= e - now P ->
        refreshes (snd (getToken P [])) = 0%nat
        /\ fst (getToken P []) = Normal (Some (access_token s)))
  /\ (data_session r = None ->
        refreshes (snd (getToken P [])) = 0%nat
        /\ fst (getToken P []) = Normal None).
Proof.
  intros Hr. destruct r as [sess err]. simpl. split; [|split].
  - intros s e -> -> He Hnz Hlt.
    apply (getToken_refreshing P s e Hr He).
    unfold expiring_soon.
    destruct (Z.eqb_spec e 0) as [|_]; [contradiction|].
    destruct (Z.ltb_spec (e - now P) 60); [reflexivity | lia].
  - intros s e -> -> He Hge.
    apply (getToken_current P s Hr). rewrite He. unfold expiring_soon.
    destruct (Z.ltb_spec (e - now P) 60); [lia|].
    apply andb_false_r.
  - intros ->.
    unfold getToken; run_M.
    rewrite Hr. simpl. destruct err; simpl; auto.
Qed.

Lemma token_retrieval_witness :
  let P := sample_platform None
             (signed_in (js "old") (Some 1700000030))
             (signed_in (js "new") (Some 1700003600))
             (Normal unhealthy) 1700000000999 in
  refreshes (snd (getToken P [])) = 1%nat
  /\ fst (getToken P []) = Normal (Some (js "new")).
Proof.
  intros P.
  refine (proj1 (token_retrieval P _ eq_refl)
            {| access_token := js "old"; expires_at := Some 1700000030 |}
            1700000030 eq_refl eq_refl eq_refl _ _).
  - discriminate.
  - vm_compute. reflexivity.
Defined.

(** C9 as stated, with the time left measured on the millisecond clock,
    fails in the second the floor drops: 59.001 seconds before the expiry
    the whole-second clock still shows 60 seconds, and [getToken] returns
    the current token without a refresh. *)
Lemma last_second_not_refreshed :
  ~ (forall (P : Platform) (s : Session) (e : Z),
       getSession P = Normal {| data_session := Some s; error := None |} ->
       expires_at s = Some e ->
       e * 1000 - Date_now P < 60 * 1000 ->
       refreshes (snd (getToken P [])) = 1%nat).
Proof.
  intros H.
  specialize (H (sample_platform None (signed_in (js "old") (Some 1700000060))
                   (signed_in (js "new") (Some 1700003600))
                   (Normal unhealthy) 1700000000999)
                {| access_token := js "old"; expires_at := Some 1700000060 |}
                1700000060 eq_refl eq_refl).
  assert (1700000060 * 1000
          - Date_now (sample_platform None (signed_in (js "old") (Some 1700000060))
                        (signed_in (js "new") (Some 1700003600))
                        (Normal unhealthy) 1700000000999) < 60 * 1000) as Hlt
    by (vm_compute; reflexivity).
  specialize (H Hlt). vm_compute in H. discriminate H.
Qed.

(** The truthiness test on the expiry also skips an expiry of 0: such a
    session is returned as it is, without a refresh. *)
Lemma zero_expiry_skips_refresh :
  let P := sample_platform None (signed_in (js "old") (Some 0))
             (signed_in (js "new") (Some 1700003600))
             (Normal unhealthy) 1700000000000 in
  refreshes (snd (getToken P [])) = 0%nat
  /\ fst (getToken P []) = Normal (Some (js "old")).
Proof. vm_compute. split; reflexivity. Qed.

End AuthFacts.

(** ** Further facts on the hexagram decoder *)

Section HexagramRendering.

Lemma names_point_into_line_table (name sym : jsstring) :
  TRIGRAM_NAMES !! name = Some sym -> is_Some (TRIGRAM_LINES !! sym).
Proof.
  intros H. unfold TRIGRAM_NAMES in H.
  apply elem_of_list_to_map_2 in H.
  repeat (apply elem_of_cons in H as [H|H];
          [injection H as _ ->; vm_compute; eauto|]).
  apply elem_of_nil in H. destruct H.
Qed.

Lemma lookup_name_parsed (name : jsstring) : parsed_slot (lookup_name name).
Proof.
  unfold lookup_name. destruct (TRIGRAM_NAMES !! name) as [sym|] eqn:E.
  - destruct (str_truthy sym); [|constructor].
    constructor. exact (names_point_into_line_table name sym E).
  - destruct (inherited name) eqn:I; constructor. exact I.
Qed.

Lemma resolve_parsed (m : option jsstring) : parsed_slot (resolve m).
Proof.
  destruct m as [cap|]; simpl; [|constructor].
  destruct (str_truthy (toLowerCase cap)); [apply lookup_name_parsed | constructor].
Qed.

Lemma filter_head_symbol (s : jsstring) (a : N) (more : jsstring) :
  List.filter is_trigram_symbol s = a :: more -> is_trigram_symbol a = true.
Proof.
  intros H.
  assert (In a (List.filter is_trigram_symbol s)) as Hin by (rewrite H; left; reflexivity).
  apply List.filter_In in Hin. tauto.
Qed.

Lemma parseTrigramSymbols_parsed (s : jsstring) :
  parsed_slot (upper (parseTrigramSymbols s))
  /\ parsed_slot (lower (parseTrigramSymbols s)).
Proof.
  unfold parseTrigramSymbols, match_symbols.
  destruct (List.filter is_trigram_symbol s) as [|a [|b more]] eqn:E; simpl;
    try (split; apply resolve_parsed).
  pose proof (filter_head_symbol _ _ _ E) as Ha.
  assert (is_trigram_symbol b = true) as Hb.
  { assert (In b (List.filter is_trigram_symbol s)) as Hin
      by (rewrite E; right; left; reflexivity).
    apply List.filter_In in Hin. tauto. }
  split; constructor; apply symbol_is_key; assumption.
Qed.

Lemma reversed_lines_parsed (r : slot) :
  parsed_slot r ->
  if is_builtin r then reversed_lines r = Throw TypeError
  else exists l, reversed_lines r = Normal l /\ length l = 3%nat.
Proof.
  destruct 1 as [|k [[[a b] c] Hk]|k Hk]; simpl.
  - eexists; split; reflexivity.
  - unfold reversed_lines, slot_truthy, lines_slice.
    rewrite (table_key_truthy _ _ Hk), Hk. eexists; split; reflexivity.
  - reflexivity.
Qed.

(** X1. A description with two or more canonical symbols is always drawn:
    the component yields the six lines of its first two symbols and
    never throws, whatever else the text contains. *)
Theorem two_symbols_always_render (s : jsstring) (a b : N) (more : jsstring) :
  List.filter is_trigram_symbol s = a :: b :: more ->
  exists ta tb,
    denotes (SStr [a]) ta /\ denotes (SStr [b]) tb
    /\ HexagramVisual_allLines s = Normal (rev ta ++ rev tb)
    /\ length (rev ta ++ rev tb) = 6%nat.
Proof.
  intros H.
  pose proof (filter_head_symbol _ _ _ H) as Ha.
  assert (is_trigram_symbol b = true) as Hb.
  { assert (In b (List.filter is_trigram_symbol s)) as Hin
      by (rewrite H; right; left; reflexivity).
    apply List.filter_In in Hin. tauto. }
  destruct (symbol_is_key a Ha) as [[[a1 a2] a3] Ka].
  destruct (symbol_is_key b Hb) as [[[b1 b2] b3] Kb].
  exists [a1; a2; a3], [b1; b2; b3].
  assert (denotes (SStr [a]) [a1; a2; a3]) as Da by (constructor; exact Ka).
  assert (denotes (SStr [b]) [b1; b2; b3]) as Db by (constructor; exact Kb).
  split; [exact Da|]. split; [exact Db|]. split; [|reflexivity].
  unfold HexagramVisual_allLines.
  rewrite (parse_first_two_matches s a b more H). simpl. unfold allLines.
  rewrite (reversed_lines_denotes _ _ Da), (reversed_lines_denotes _ _ Db).
  reflexivity.
Qed.

Lemma two_symbols_always_render_witness :
  exists ta tb,
    denotes (SStr [sym_earth]) ta /\ denotes (SStr [sym_water]) tb
    /\ HexagramVisual_allLines earth_water_fire = Normal (rev ta ++ rev tb)
    /\ length (rev ta ++ rev tb) = 6%nat.
Proof.
  apply (two_symbols_always_render earth_water_fire sym_earth sym_water [sym_fire]).
  reflexivity.
Defined.

(** X2. Drawing a description throws exactly when name matching filled a
    slot with a built-in inherited from [Object.prototype]; in every other
    case the component yields six lines. *)
Theorem render_throws_iff_builtin (s : jsstring) :
  let t := parseTrigramSymbols s in
  if is_builtin (upper t) || is_builtin (lower t)
  then HexagramVisual_allLines s = Throw TypeError
  else exists seq, HexagramVisual_allLines s = Normal seq /\ length seq = 6%nat.
Proof.
  intros t. unfold HexagramVisual_allLines. fold t.
  destruct (parseTrigramSymbols_parsed s) as [Hu Hl]. fold t in Hu, Hl.
  pose proof (reversed_lines_parsed _ Hu) as Ru.
  pose proof (reversed_lines_parsed _ Hl) as Rl.
  unfold allLines.
  destruct (is_builtin (upper t)); simpl.
  - rewrite Ru. reflexivity.
  - destruct Ru as (lu & -> & Lu).
    destruct (is_builtin (lower t)).
    + rewrite Rl. reflexivity.
    + destruct Rl as (ll & -> & Ll). exists (lu ++ ll). split; [reflexivity|].
      rewrite length_app, Lu, Ll. reflexivity.
Qed.

(** *** What the name group can hold *)

Lemma span_run (p : N -> bool) (s : jsstring) :
  Forall (fun c => p c = true) (fst (span p s)).
Proof.
  induction s as [|c s IH]; simpl; [constructor|].
  destruct (p c) eqn:E; [|constructor].
  destruct (span p s) as [run rest]. simpl in *. constructor; assumption.
Qed.

Lemma match_here_word_run (lit : list (N -> bool)) (s cap : jsstring) :
  match_here lit s = Some cap ->
  cap <> [] /\ Forall (fun c => is_word c = true) cap.
Proof.
  unfold match_here.
  destruct (match_literal lit s) as [r|]; [|discriminate].
  destruct (span is_space r) as [[|sp0 sp] rest]; [discriminate|].
  pose proof (span_run is_word rest) as Hrun.
  destruct (span is_word rest) as [[|w0 w] x]; [discriminate|].
  intros [= <-]. split; [discriminate | exact Hrun].
Qed.

Lemma match_marker_word_run (lit : list (N -> bool)) (s cap : jsstring) :
  match_marker lit s = Some cap ->
  cap <> [] /\ Forall (fun c => is_word c = true) cap.
Proof.
  induction s as [|c s IH]; simpl.
  - destruct (match_here lit []) eqn:E; [|discriminate].
    intros [= <-]. exact (match_here_word_run lit [] _ E).
  - destruct (match_here lit (c :: s)) eqn:E.
    + intros [= <-]. exact (match_here_word_run lit _ _ E).
    + exact IH.
Qed.

Lemma is_word_spec (c : N) :
  is_word c = true
  <-> (65 <= c <= 90) \/ (97 <= c <= 122) \/ (48 <= c <= 57) \/ c = 95.
Proof.
  unfold is_word.
  rewrite !orb_true_iff, !andb_true_iff, !N.leb_le, N.eqb_eq. tauto.
Qed.

Lemma lower_word (c : N) :
  is_word c = true ->
  is_word (if (65 <=? c) && (c <=? 90) then c + 32 else c) = true.
Proof.
  intros H.
  destruct ((65 <=? c) && (c <=? 90)) eqn:E; [|exact H].
  apply andb_true_iff in E as [E1 E2]. apply N.leb_le in E1, E2.
  apply is_word_spec. lia.
Qed.

Lemma toLowerCase_word (cap : jsstring) :
  Forall (fun c => is_word c = true) cap ->
  Forall (fun c => is_word c = true) (toLowerCase cap).
Proof.
  unfold toLowerCase. induction 1 as [|c cap Hc _ IH]; simpl; constructor.
  - apply lower_word. exact Hc.
  - exact IH.
Qed.

(** X3. The name looked up in the synonym table is never empty and holds
    only code units of [[A-Za-z0-9_]]: a key with any other code unit, such
    as an accented Vietnamese name, cannot be reached by name matching. *)
Theorem looked_up_name_is_ascii_word (lit : list (N -> bool)) (s cap k : jsstring) :
  match_marker lit s = Some cap ->
  toLowerCase cap = k ->
  k <> [] /\ Forall (fun c => is_word c = true) k.
Proof.
  intros Hm <-.
  destruct (match_marker_word_run lit s cap Hm) as [Hne Hw].
  split.
  - destruct cap; [congruence | discriminate].
  - apply toLowerCase_word. exact Hw.
Qed.

Lemma looked_up_name_is_ascii_word_witness :
  js "l" <> [] /\ Forall (fun c => is_word c = true) (js "l").
Proof.
  apply (looked_up_name_is_ascii_word marker_upper upper_lua (js "L") (js "l")).
  - vm_compute. reflexivity.
  - reflexivity.
Defined.

(** *** Descriptions without a marker *)

Lemma match_literal_upper_has_h (s r : jsstring) :
  match_literal marker_upper s = Some r ->
  Exists (fun c => is_letter_h c = true) s.
Proof.
  destruct s as [|c0 [|c1 s]]; simpl.
  - discriminate.
  - destruct (ci 116 84 c0); discriminate.
  - destruct (ci 116 84 c0); [|discriminate].
    destruct (ci 104 72 c1) eqn:E; [|discriminate].
    intros _. apply Exists_cons_tl, Exists_cons_hd. exact E.
Qed.

Lemma match_literal_lower_has_h (s r : jsstring) :
  match_literal marker_lower s = Some r ->
  Exists (fun c => is_letter_h c = true) s.
Proof.
  destruct s as [|c0 s]; simpl; [discriminate|].
  destruct (ci 104 72 c0) eqn:E; [|discriminate].
  intros _. apply Exists_cons_hd. exact E.
Qed.

Lemma match_marker_needs (lit : list (N -> bool)) (P : N -> Prop) (s cap : jsstring) :
  (forall s' r, match_literal lit s' = Some r -> Exists P s') ->
  match_marker lit s = Some cap -> Exists P s.
Proof.
  intros Hlit. induction s as [|c s IH]; simpl.
  - unfold match_here. destruct (match_literal lit []) eqn:E; [|discriminate].
    intros _. exact (Hlit _ _ E).
  - unfold match_here at 1. destruct (match_literal lit (c :: s)) eqn:E.
    + intros _. exact (Hlit _ _ E).
    + intros H. apply Exists_cons_tl, IH, H.
Qed.

Lemma no_h_no_marker (lit : list (N -> bool)) (s : jsstring) :
  (forall s' r, match_literal lit s' = Some r ->
                Exists (fun c => is_letter_h c = true) s') ->
  Forall (fun c => is_letter_h c = false) s ->
  match_marker lit s = None.
Proof.
  intros Hlit Hs. destruct (match_marker lit s) as [cap|] eqn:E; [|reflexivity].
  apply (match_marker_needs lit _ s cap Hlit) in E.
  apply Exists_exists in E as (c & Hin & Hc).
  rewrite Forall_forall in Hs. rewrite (Hs c Hin) in Hc. discriminate.
Qed.

(** X4. A description with fewer than two symbols and no letter h (which
    both marker words need) resolves neither slot: a lone symbol is
    ignored and the component draws six solid lines. *)
Theorem lone_symbol_draws_default (s : jsstring) :
  (length (List.filter is_trigram_symbol s) < 2)%nat ->
  Forall (fun c => is_letter_h c = false) s ->
  parseTrigramSymbols s = {| upper := SNull; lower := SNull |}
  /\ HexagramVisual_allLines s = Normal (repeat solid 6).
Proof.
  intros Hfew Hs.
  assert (parseTrigramSymbols s = {| upper := SNull; lower := SNull |}) as Hp.
  { rewrite (fallback_when_fewer_than_two s Hfew).
    rewrite (no_h_no_marker marker_upper s match_literal_upper_has_h Hs).
    rewrite (no_h_no_marker marker_lower s match_literal_lower_has_h Hs).
    reflexivity. }
  split; [exact Hp|].
  unfold HexagramVisual_allLines. rewrite Hp. reflexivity.
Qed.

Lemma lone_symbol_draws_default_witness :
  parseTrigramSymbols (js "Que " ++ [sym_water])
  = {| upper := SNull; lower := SNull |}
  /\ HexagramVisual_allLines (js "Que " ++ [sym_water]) = Normal (repeat solid 6).
Proof.
  apply (lone_symbol_draws_default (js "Que " ++ [sym_water])).
  - vm_compute. lia.
  - vm_compute. repeat constructor.
Defined.

(** X5. The line table tells every two keys apart except Thunder and
    Mountain: two keys with the same triple are equal or are these two. *)
Theorem lines_distinguish_keys (k k' : jsstring) (t : lines3) :
  TRIGRAM_LINES !! k = Some t ->
  TRIGRAM_LINES !! k' = Some t ->
  k = k'
  \/ ((k = [sym_thunder] \/ k = [sym_mountain])
      /\ (k' = [sym_thunder] \/ k' = [sym_mountain])).
Proof.
  intros H H'. unfold TRIGRAM_LINES in H, H'.
  apply elem_of_list_to_map_2 in H, H'.
  repeat (apply elem_of_cons in H as [H|H]; [injection H as -> ->|]);
    try (apply elem_of_nil in H; destruct H);
    repeat (apply elem_of_cons in H' as [H'|H'];
            [first [discriminate H' | injection H' as ->]; auto|]);
    apply elem_of_nil in H'; destruct H'.
Qed.

Lemma lines_distinguish_keys_witness :
  [sym_thunder] = [sym_mountain]
  \/ (([sym_thunder] = [sym_thunder] \/ [sym_thunder] = [sym_mountain])
      /\ ([sym_mountain] = [sym_thunder] \/ [sym_mountain] = [sym_mountain])).
Proof.
  apply (lines_distinguish_keys [sym_thunder] [sym_mountain] (broken, broken, solid));
    reflexivity.
Defined.

End HexagramRendering.

(** ** Further facts on the API gateway client *)

Section ApiCalls.

Lemma read_errorData_log (resp : Response) (log : list event) :
  read_errorData resp log = (fst (read_errorData resp []), log).
Proof.
  unfold read_errorData, get_field; run_M.
  destruct (json_body resp) as [j|e]; simpl; [|reflexivity].
  destruct j; reflexivity.
Qed.

Lemma new_ApiException_log (P : Platform) (err : ApiError) (log : list event) :
  new_ApiException P err log = (fst (new_ApiException P err []), log).
Proof.
  unfold new_ApiException; run_M.
  destruct (js_or _ _) as [arg|]; [|reflexivity].
  destruct (ToString P arg); reflexivity.
Qed.

(** What [apiFetch] does, by the outcome of its one request. *)
Lemma apiFetch_run (P : Platform) (ep : jsstring) (options : RequestInit)
    (log : list event) :
  let cfg := with_headers options
               (spread (buildBaseHeaders P) (spread_opt (headers options))) in
  let log1 := log ++ [EvFetch (API_BASE_URL P ++ ep) (Some cfg)] in
  apiFetch P ep options log
  = (match fetch P (API_BASE_URL P ++ ep) (Some cfg) with
     | Throw e => Throw e
     | Normal resp => if ok resp then json_body resp else failure_of P resp
     end, log1).
Proof.
  intros cfg log1. unfold apiFetch, call_fetch; run_M. fold cfg. fold log1.
  destruct (fetch P (API_BASE_URL P ++ ep) (Some cfg)) as [resp|e]; [|reflexivity].
  unfold failure_of. destruct (ok resp); simpl.
  - destruct (json_body resp); reflexivity.
  - rewrite (read_errorData_log resp log1).
    destruct (fst (read_errorData resp [])) as [err|e]; [|reflexivity].
    rewrite (new_ApiException_log P err log1).
    destruct (fst (new_ApiException P err [])); reflexivity.
Qed.

(** What [apiFetchWithAuth] does: the same completion for its request,
    and a log that differs only by console lines after the request. *)
Lemma apiFetchWithAuth_run (P : Platform) (ep : jsstring) (options : RequestInit)
    (log : list event) (tok : option jsstring) (log' : list event) :
  Supabase.getAccessToken P log = (Normal tok, log') ->
  exists diagnostics,
    apiFetchWithAuth P ep options log
    = (match fetch P (API_BASE_URL P ++ ep)
               (Some (with_headers options
                        (spread (spread (buildBaseHeaders P) (bearer tok))
                                (spread_opt (headers options))))) with
       | Throw e => Throw e
       | Normal resp => if ok resp then json_body resp else failure_of P resp
       end,
       log' ++ [EvFetch (API_BASE_URL P ++ ep)
                  (Some (with_headers options
                           (spread (spread (buildBaseHeaders P) (bearer tok))
                                   (spread_opt (headers options)))))]
            ++ List.map EvConsoleError diagnostics).
Proof.
  intros Htok. unfold apiFetchWithAuth. unfold bind at 1. rewrite Htok.
  set (cfg := with_headers options _).
  unfold call_fetch; run_M.
  set (log1 := log' ++ [EvFetch (API_BASE_URL P ++ ep) (Some cfg)]).
  destruct (fetch P (API_BASE_URL P ++ ep) (Some cfg)) as [resp|e].
  2:{ exists []. simpl. reflexivity. }
  unfold failure_of. destruct (ok resp); simpl.
  - exists []. destruct (json_body resp); reflexivity.
  - rewrite (read_errorData_log resp log1).
    destruct (fst (read_errorData resp [])) as [err|e];
      [|exists []; reflexivity].
    rewrite (new_ApiException_log P err log1).
    destruct (fst (new_ApiException P err [])) as [exc|e];
      [|exists []; reflexivity].
    simpl.
    destruct (isApiKeyError exc);
      [eexists [_]; unfold emit, log1; simpl; rewrite <- app_assoc; reflexivity|].
    destruct (isAuthError exc);
      [eexists [_]; unfold emit, log1; simpl; rewrite <- app_assoc; reflexivity|].
    destruct (isRateLimitError exc);
      [eexists [_]; unfold emit, log1; simpl; rewrite <- app_assoc; reflexivity|].
    exists []. reflexivity.
Qed.

Lemma requests_console (msgs : list jsstring) :
  requests (List.map EvConsoleError msgs) = [].
Proof. induction msgs; simpl; auto. Qed.

Lemma refreshes_app (l1 l2 : list event) :
  refreshes (l1 ++ l2) = (refreshes l1 + refreshes l2)%nat.
Proof.
  induction l1 as [|ev l1 IH]; simpl; [reflexivity|].
  destruct ev; simpl; rewrite IH; reflexivity.
Qed.

Lemma session_lookups_app (l1 l2 : list event) :
  session_lookups (l1 ++ l2) = (session_lookups l1 + session_lookups l2)%nat.
Proof.
  induction l1 as [|ev l1 IH]; simpl; [reflexivity|].
  destruct ev; simpl; rewrite IH; reflexivity.
Qed.

Lemma console_counts (msgs : list jsstring) :
  refreshes (List.map EvConsoleError msgs) = 0%nat
  /\ session_lookups (List.map EvConsoleError msgs) = 0%nat.
Proof. induction msgs; simpl; auto. Qed.

Lemma getAccessToken_counts (P : Platform) :
  refreshes (snd (Supabase.getAccessToken P [])) = 0%nat
  /\ session_lookups (snd (Supabase.getAccessToken P [])) = 1%nat.
Proof.
  unfold Supabase.getAccessToken; run_M.
  destruct (getSession P); simpl; auto.
Qed.

(** The completion of an exposed call when the server answers every
    request to its URL with [out]. *)
Lemma dreamApi_completion (P : Platform) (c : call) (log : list event)
    (out : completion thrown Response) :
  (forall init, fetch P (API_BASE_URL P ++ endpoint P c) init = out) ->
  fst (dreamApi P c log)
  = match out with
    | Throw e => Throw e
    | Normal resp =>
        if ok resp || negb (checks_status c) then json_body resp
        else failure_of P resp
    end.
Proof.
  intros Hfetch.
  destruct c; cbn [dreamApi endpoint checks_status negb] in *;
    unfold interpretDream, analyzeDream, getDreamHistory, searchSymbols,
      getCommonSymbols, analyzeTriangle;
    try (rewrite apiFetch_run; cbn [fst]; rewrite Hfetch;
         destruct out as [resp|e]; [rewrite orb_false_r|]; reflexivity);
    try (destruct (getAccessToken_total P log) as (tok & log' & Htok);
         match goal with
         | |- context [apiFetchWithAuth P ?ep ?o log] =>
             destruct (apiFetchWithAuth_run P ep o log tok log' Htok) as (d & ->)
         end;
         cbn [fst]; rewrite Hfetch;
         destruct out as [resp|e]; [rewrite orb_false_r|]; reflexivity).
  unfold healthCheck, call_fetch; run_M. rewrite Hfetch.
  destruct out as [resp|e]; simpl; [|reflexivity].
  rewrite orb_true_r. destruct (json_body resp); reflexivity.
Qed.

(** The log of an exposed call: the session lookup of an authenticated
    call, one request, then console lines only. *)
Lemma dreamApi_log (P : Platform) (c : call) :
  exists init diagnostics,
    snd (dreamApi P c [])
    = (if authenticated c then snd (Supabase.getAccessToken P []) else [])
      ++ [EvFetch (API_BASE_URL P ++ endpoint P c) init]
      ++ List.map EvConsoleError diagnostics.
Proof.
  destruct c; cbn [dreamApi endpoint authenticated];
    unfold interpretDream, analyzeDream, getDreamHistory, searchSymbols,
      getCommonSymbols, analyzeTriangle;
    try (rewrite apiFetch_run; cbn [snd]; eexists _, []; reflexivity);
    try (destruct (getAccessToken_total P []) as (tok & log' & Htok);
         match goal with
         | |- context [apiFetchWithAuth P ?ep ?o []] =>
             destruct (apiFetchWithAuth_run P ep o [] tok log' Htok) as (d & ->)
         end;
         rewrite Htok; cbn [snd]; eexists _, d; reflexivity).
  unfold healthCheck, call_fetch; run_M.
  exists None, []. simpl.
  destruct (fetch P _ None) as [resp|e]; simpl; [|reflexivity].
  destruct (json_body resp); reflexivity.
Qed.

(** X6. Every exposed call sends exactly one request, to the configured
    base URL followed by the path of the call (for the history, the path
    ends with the limit as [Number.prototype.toString] prints it),
    whatever the outcome: the client never retries and never calls another
    endpoint. *)
Theorem one_request_per_call (P : Platform) (c : call) :
  exists init,
    requests (snd (dreamApi P c [])) = [(API_BASE_URL P ++ endpoint P c, init)].
Proof.
  destruct (dreamApi_log P c) as (init & d & ->). exists init.
  rewrite !requests_app, requests_console. simpl.
  destruct (authenticated c); [|reflexivity].
  rewrite (getAccessToken_requests P []). reflexivity.
Qed.

(** X7. No call refreshes the session, and only the two authenticated
    calls look the session up, exactly once: an expiring token is sent as
    it is. *)
Theorem calls_never_refresh (P : Platform) (c : call) :
  refreshes (snd (dreamApi P c [])) = 0%nat
  /\ session_lookups (snd (dreamApi P c []))
     = if authenticated c then 1%nat else 0%nat.
Proof.
  destruct (dreamApi_log P c) as (init & d & ->).
  rewrite !refreshes_app, !session_lookups_app.
  destruct (console_counts d) as [-> ->].
  destruct (getAccessToken_counts P) as [Hr Hs].
  destruct (authenticated c); simpl; [rewrite Hr, Hs|]; auto.
Qed.

(** X8. A transport failure of [fetch] reaches the caller unchanged: the
    call throws the very value [fetch] threw, for every exposed call. *)
Theorem transport_failure_propagates (P : Platform) (c : call)
    (e : thrown) (log : list event) :
  (forall init, fetch P (API_BASE_URL P ++ endpoint P c) init = Throw e) ->
  fst (dreamApi P c log) = Throw e.
Proof.
  intros H. rewrite (dreamApi_completion P c log (Throw e) H). reflexivity.
Qed.

Lemma transport_failure_propagates_witness :
  fst (dreamApi (sample_platform None signed_out signed_out
                   (Throw (ThrownPlatform (js "Failed to fetch"))) 0)
         (AnalyzeTriangle (js "{}")) [])
  = Throw (ThrownPlatform (js "Failed to fetch")).
Proof.
  apply (transport_failure_propagates
           (sample_platform None signed_out signed_out
              (Throw (ThrownPlatform (js "Failed to fetch"))) 0)
           (AnalyzeTriangle (js "{}")) (ThrownPlatform (js "Failed to fetch")) []).
  intros init. reflexivity.
Defined.

(** X9. On a 2xx response every call completes as [response.json()] does:
    it returns the parsed body unchanged, or throws the parse failure
    itself, never the structured error. *)
Theorem success_returns_body (P : Platform) (c : call) (resp : Response)
    (log : list event) :
  (forall init, fetch P (API_BASE_URL P ++ endpoint P c) init = Normal resp) ->
  ok resp = true ->
  fst (dreamApi P c log) = json_body resp.
Proof.
  intros H Hok. rewrite (dreamApi_completion P c log (Normal resp) H), Hok.
  reflexivity.
Qed.

Lemma success_returns_body_witness :
  let resp := {| status := 200; statusText := js "OK";
                 json_body := Normal (JArr []) |} in
  fst (dreamApi (sample_platform None signed_out signed_out (Normal resp) 0)
         (GetDreamHistory 10%float) [])
  = Normal (JArr []).
Proof.
  intros resp.
  apply (success_returns_body
           (sample_platform None signed_out signed_out (Normal resp) 0)
           (GetDreamHistory 10%float) resp []).
  - intros init. reflexivity.
  - reflexivity.
Defined.

(** *** The structured error of a failed response *)

Lemma failure_of_object (P : Platform) (resp : Response)
    (props : list (jsstring * json)) :
  json_body resp = Normal (JObj props) ->
  failure_of P resp
  = match fst (new_ApiException P
                 {| err_error :=
                      js_or (js_or (own_property props (js "detail"))
                                   (own_property props (js "message")))
                            (Some (JStr (js "Request failed")));
                    status_code := status resp;
                    err_detail := own_property props (js "detail") |} []) with
    | Throw e => Throw e
    | Normal exception => Throw (ThrownApi exception)
    end.
Proof.
  intros H. unfold failure_of, read_errorData, get_field; run_M.
  rewrite H. reflexivity.
Qed.

(** X10. The message of the structured error is taken from the error
    body in this order: its [detail] when that is a non-empty string, else
    its [message] when that is a non-empty string, else "Request failed"
    when both are falsy; the error keeps the status of the response and
    the body's [detail]. *)
Theorem error_message_precedence (P : Platform) (c : call) (resp : Response)
    (props : list (jsstring * json)) (log : list event) :
  checks_status c = true ->
  (forall init, fetch P (API_BASE_URL P ++ endpoint P c) init = Normal resp) ->
  ok resp = false ->
  json_body resp = Normal (JObj props) ->
  let d := own_property props (js "detail") in
  let m := own_property props (js "message") in
  let thrown_with msg :=
    Throw (ThrownApi {| message := msg; name := js "ApiException";
                        statusCode := status resp; detail := d |}) in
  (forall ds, d = Some (JStr ds) -> ds <> [] ->
     fst (dreamApi P c log) = thrown_with ds)
  /\ (forall ms, truthy d = false -> m = Some (JStr ms) -> ms <> [] ->
        fst (dreamApi P c log) = thrown_with ms)
  /\ (truthy d = false -> truthy m = false ->
        fst (dreamApi P c log) = thrown_with (js "Request failed")).
Proof.
  intros Hc Hfetch Hok Hbody d m thrown_with.
  rewrite (dreamApi_completion P c log (Normal resp) Hfetch), Hok, Hc.
  simpl. rewrite (failure_of_object P resp props Hbody).
  fold d. fold m. unfold thrown_with, new_ApiException, js_or; run_M.
  clearbody d m. simpl.
  split; [|split].
  - intros ds Hd Hne. rewrite Hd. destruct ds as [|ch ds]; [congruence|].
    reflexivity.
  - intros ms Hd Hm Hne. rewrite Hd, Hm. destruct ms as [|ch ms]; [congruence|].
    simpl. rewrite ?Hd. reflexivity.
  - intros Hd Hm. rewrite Hd, Hm. simpl. rewrite ?Hd. reflexivity.
Qed.

Lemma error_message_precedence_witness :
  let resp := {| status := 429; statusText := js "Too Many Requests";
                 json_body := Normal (JObj [(js "message", JStr (js "later"));
                                            (js "detail", JStr (js "slow down"))]) |} in
  fst (dreamApi (sample_platform None signed_out signed_out (Normal resp) 0)
         (SearchSymbols (js "{}")) [])
  = Throw (ThrownApi {| message := js "slow down"; name := js "ApiException";
                        statusCode := 429;
                        detail := Some (JStr (js "slow down")) |}).
Proof.
  intros resp.
  refine (proj1 (error_message_precedence
                   (sample_platform None signed_out signed_out (Normal resp) 0)
                   (SearchSymbols (js "{}")) resp
                   [(js "message", JStr (js "later"));
                    (js "detail", JStr (js "slow down"))] [] _ _ _ _)
            (js "slow down") _ _).
  - reflexivity.
  - intros init. reflexivity.
  - reflexivity.
  - reflexivity.
  - reflexivity.
  - discriminate.
Defined.

(** X11. An error body that is the JSON value [null] is handled like one
    that does not parse: reading [detail] from it throws inside the [try],
    and the structured error carries the message built from the status and
    the status text. *)
Theorem null_error_body (P : Platform) (c : call) (resp : Response)
    (log : list event) :
  checks_status c = true ->
  (forall init, fetch P (API_BASE_URL P ++ endpoint P c) init = Normal resp) ->
  ok resp = false ->
  json_body resp = Normal JNull ->
  fst (dreamApi P c log)
  = Throw (ThrownApi {| message := js "HTTP " ++ decimal (status resp)
                                   ++ js ": " ++ statusText resp;
                        name := js "ApiException";
                        statusCode := status resp;
                        detail := None |}).
Proof.
  intros Hc Hfetch Hok Hbody.
  rewrite (dreamApi_completion P c log (Normal resp) Hfetch), Hok, Hc.
  simpl. unfold failure_of, read_errorData, get_field; run_M.
  rewrite Hbody. reflexivity.
Qed.

Lemma null_error_body_witness :
  let resp := {| status := 500; statusText := js "Internal Server Error";
                 json_body := Normal JNull |} in
  fst (dreamApi (sample_platform None signed_out signed_out (Normal resp) 0)
         GetCommonSymbols [])
  = Throw (ThrownApi {| message := js "HTTP 500: Internal Server Error";
                        name := js "ApiException";
                        statusCode := 500;
                        detail := None |}).
Proof.
  intros resp.
  apply (null_error_body
           (sample_platform None signed_out signed_out (Normal resp) 0)
           GetCommonSymbols resp []).
  - reflexivity.
  - intros init. reflexivity.
  - reflexivity.
  - reflexivity.
Defined.

(** X12. The authenticated wrapper completes exactly as the
    unauthenticated one whenever the server answers both requests alike:
    the token lookup and the console diagnostics never change what is
    returned or thrown. *)
Theorem wrappers_complete_alike (P : Platform) (ep : jsstring)
    (options : RequestInit) (log log' : list event) :
  (forall init init',
      fetch P (API_BASE_URL P ++ ep) init = fetch P (API_BASE_URL P ++ ep) init') ->
  fst (apiFetchWithAuth P ep options log) = fst (apiFetch P ep options log').
Proof.
  intros H.
  destruct (getAccessToken_total P log) as (tok & l & Htok).
  destruct (apiFetchWithAuth_run P ep options log tok l Htok) as (d & ->).
  rewrite apiFetch_run. cbn [fst].
  rewrite (H _ (Some (with_headers options
                        (spread (buildBaseHeaders P) (spread_opt (headers options)))))).
  reflexivity.
Qed.

Lemma wrappers_complete_alike_witness :
  let P := sample_platform (Some (js "client-key")) (signed_in (js "jwt") None)
             signed_out (Normal unhealthy) 0 in
  fst (apiFetchWithAuth P (js "/api/dreams/analyze") (POST (js "{}")) [])
  = fst (apiFetch P (js "/api/dreams/analyze") (POST (js "{}")) []).
Proof.
  intros P.
  apply (wrappers_complete_alike P (js "/api/dreams/analyze") (POST (js "{}")) [] []).
  intros init init'. reflexivity.
Defined.

(** *** Headers of the other requests *)

Lemma spread_lookup (a b : gmap jsstring jsstring) (k : jsstring) :
  spread a b !! k = match b !! k with Some v => Some v | None => a !! k end.
Proof.
  unfold spread. rewrite lookup_union.
  destruct (b !! k), (a !! k); reflexivity.
Qed.

Lemma apiFetch_header (P : Platform) (ep : jsstring) (options : RequestInit)
    (k : jsstring) :
  sent_header (snd (apiFetch P ep options [])) k
  = [ match spread_opt (headers options) !! k with
      | Some v => Some v
      | None => buildBaseHeaders P !! k
      end ].
Proof.
  rewrite apiFetch_run. unfold sent_header. simpl.
  rewrite spread_lookup. reflexivity.
Qed.

(** X13. A call that is not authenticated never sends an [Authorization]
    header.  Through [apiFetch] it sends [Content-Type: application/json]
    and the [X-API-Key] header exactly when the client key is non-empty;
    the health check sends no header at all. *)
Theorem unauthenticated_request_headers (P : Platform) (c : call) :
  authenticated c = false ->
  let sent := sent_header (snd (dreamApi P c [])) in
  sent (js "Authorization") = [None]
  /\ (if checks_status c
      then sent (js "Content-Type") = [Some (js "application/json")]
           /\ sent (js "X-API-Key")
              = [if str_truthy (API_SECRET_KEY P)
                 then Some (API_SECRET_KEY P) else None]
      else forall k, sent k = [None]).
Proof.
  intros Hc sent. unfold sent.
  destruct c; try discriminate Hc; cbn [dreamApi checks_status];
    unfold interpretDream, searchSymbols, getCommonSymbols, analyzeTriangle;
    rewrite ?apiFetch_header; cbn [POST GET headers spread_opt];
    rewrite ?lookup_empty, ?base_header_authorization,
      ?base_header_content_type, ?base_header_api_key; auto.
  assert (forall k, sent_header (snd (healthCheck P [])) k = [None]) as Hh.
  { intros k. unfold healthCheck, call_fetch, sent_header; run_M.
    destruct (fetch P _ None) as [resp|e]; simpl; [|reflexivity].
    destruct (json_body resp); reflexivity. }
  split; [apply Hh | exact Hh].
Qed.

Lemma unauthenticated_request_headers_witness :
  let P := sample_platform (Some (js "client-key")) (signed_in (js "jwt") None)
             signed_out (Normal unhealthy) 0 in
  sent_header (snd (dreamApi P (AnalyzeTriangle (js "{}")) [])) (js "Authorization")
  = [None].
Proof.
  intros P.
  exact (proj1 (unauthenticated_request_headers P (AnalyzeTriangle (js "{}")) eq_refl)).
Defined.

(** X14. When [options.headers] is a plain object, its entries are
    spread last and win: whatever name they define, [Content-Type],
    [X-API-Key] and [Authorization] included, is sent with the caller's
    value by both wrappers. *)
Theorem caller_headers_win (P : Platform) (ep : jsstring) (options : RequestInit)
    (h : gmap jsstring jsstring) (k v : jsstring) :
  headers options = Some h ->
  h !! k = Some v ->
  sent_header (snd (apiFetch P ep options [])) k = [Some v]
  /\ sent_header (snd (apiFetchWithAuth P ep options [])) k = [Some v].
Proof.
  intros Hh Hk. split.
  - rewrite apiFetch_header, Hh. simpl. rewrite Hk. reflexivity.
  - destruct (getAccessToken_total P []) as (tok & l & Htok).
    unfold sent_header.
    rewrite (apiFetchWithAuth_requests P ep options tok l Htok). simpl.
    rewrite spread_lookup, Hh. simpl. rewrite Hk. reflexivity.
Qed.

Lemma caller_headers_win_witness :
  let P := sample_platform (Some (js "client-key")) (signed_in (js "jwt") None)
             signed_out (Normal unhealthy) 0 in
  let options := {| method := Some (js "GET"); body := None;
                    headers := Some {[ js "Authorization" := js "Basic abc" ]} |} in
  sent_header (snd (apiFetch P (js "/x") options [])) (js "Authorization")
  = [Some (js "Basic abc")]
  /\ sent_header (snd (apiFetchWithAuth P (js "/x") options [])) (js "Authorization")
     = [Some (js "Basic abc")].
Proof.
  intros P options.
  apply (caller_headers_win P (js "/x") options
           {[ js "Authorization" := js "Basic abc" ]}
           (js "Authorization") (js "Basic abc")).
  - reflexivity.
  - apply lookup_singleton_eq.
Defined.

(** *** Classification of the error a wrapper throws *)

Lemma ToString_throws_TypeError (P : Platform) (v : json) (e : thrown) :
  ToString P v = Throw e -> e = ThrownTypeError.
Proof.
  revert v e. fix IH 1. intros v e. destruct v as [|b|x|s|items|props]; simpl.
  - discriminate.
  - destruct b; discriminate.
  - discriminate.
  - discriminate.
  - induction items as [|x rest IHrest]; [discriminate|].
    cbn.
    destruct (match x with JNull => Normal [] | _ => ToString P x end) as [sx|ex] eqn:Ex.
    + destruct rest as [|y rest']; [discriminate|].
      cbn in IHrest |- *.
      match type of IHrest with
      | ?joined = _ -> _ => destruct joined as [sr|er]
      end; [discriminate|].
      intros [= <-]. apply IHrest. reflexivity.
    + intros [= <-].
      assert (ToString P x = Throw ex) as Hx
        by (destruct x; try exact Ex; discriminate Ex).
      exact (IH x ex Hx).
  - destruct (own_property props (js "toString")); [|discriminate].
    intros [= <-]. reflexivity.
Qed.

Lemma failure_of_cases (P : Platform) (resp : Response) :
  failure_of P resp = Throw ThrownTypeError
  \/ exists exc, failure_of P resp = Throw (ThrownApi exc)
                 /\ statusCode exc = status resp.
Proof.
  unfold failure_of.
  destruct (read_errorData_total resp []) as (err & -> & Hst). cbn [fst].
  unfold new_ApiException; run_M.
  destruct (js_or _ _) as [arg|]; cbn [fst].
  - destruct (ToString P arg) as [msg|e] eqn:E; cbn [fst].
    + right. eexists. split; [reflexivity | exact Hst].
    + left. rewrite (ToString_throws_TypeError P arg e E). reflexivity.
  - right. eexists. split; [reflexivity | exact Hst].
Qed.

(** C6. On a non-2xx response both wrappers throw the same value: the
    structured error, or the [TypeError] of a message that has no string
    form.  The structured error stores the status of the response, and its
    three classification predicates depend on that code alone and exclude
    each other: built from a 403 response it is an API-key error only,
    from a 429 a rate-limit error only, from a 401 an auth error only. *)
Theorem classification_by_status (P : Platform) (ep : jsstring)
    (options : RequestInit) (resp : Response) (log : list event) :
  (forall init, fetch P (API_BASE_URL P ++ ep) init = Normal resp) ->
  ok resp = false ->
  exists out,
    fst (apiFetch P ep options log) = Throw out
    /\ fst (apiFetchWithAuth P ep options log) = Throw out
    /\ (out = ThrownTypeError
        \/ exists exc,
             out = ThrownApi exc
             /\ statusCode exc = status resp
             /\ (status resp = 403 ->
                 isApiKeyError exc = true /\ isAuthError exc = false
                 /\ isRateLimitError exc = false)
             /\ (status resp = 429 ->
                 isApiKeyError exc = false /\ isAuthError exc = false
                 /\ isRateLimitError exc = true)
             /\ (status resp = 401 ->
                 isApiKeyError exc = false /\ isAuthError exc = true
                 /\ isRateLimitError exc = false))
    /\ (forall e e' : ApiException, statusCode e = statusCode e' ->
          isApiKeyError e = isApiKeyError e'
          /\ isAuthError e = isAuthError e'
          /\ isRateLimitError e = isRateLimitError e')
    /\ (forall e : ApiException,
          (isApiKeyError e && isAuthError e
           || isApiKeyError e && isRateLimitError e
           || isAuthError e && isRateLimitError e) = false).
Proof.
  intros Hfetch Hok.
  destruct (getAccessToken_total P log) as (tok & l & Htok).
  destruct (apiFetchWithAuth_run P ep options log tok l Htok) as (d & ->).
  rewrite apiFetch_run. cbn [fst]. rewrite !Hfetch, Hok.
  unfold isApiKeyError, isAuthError, isRateLimitError.
  destruct (failure_of_cases P resp) as [->|(exc & -> & Hst)].
  - exists ThrownTypeError. split; [reflexivity|]. split; [reflexivity|].
    split; [left; reflexivity|]. split.
    + intros e e' He. rewrite He. auto.
    + intros e.
      destruct (N.eqb_spec (statusCode e) 403) as [->|]; [reflexivity|].
      destruct (N.eqb_spec (statusCode e) 401) as [->|]; reflexivity.
  - exists (ThrownApi exc). split; [reflexivity|]. split; [reflexivity|].
    split; [|split].
    + right. exists exc. split; [reflexivity|]. split; [exact Hst|].
      rewrite Hst.
      split; [intros ->; auto|]. split; [intros ->; auto | intros ->; auto].
    + intros e e' He. rewrite He. auto.
    + intros e.
      destruct (N.eqb_spec (statusCode e) 403) as [->|]; [reflexivity|].
      destruct (N.eqb_spec (statusCode e) 401) as [->|]; reflexivity.
Qed.

Lemma classification_by_status_witness :
  let resp := {| status := 403; statusText := js "Forbidden";
                 json_body := Normal (JObj [(js "detail", JStr (js "Invalid API key"))]) |} in
  let P := sample_platform None signed_out signed_out (Normal resp) 0 in
  exists exc,
    fst (apiFetch P (js "/api/dreams/search") (POST (js "{}")) []) = Throw (ThrownApi exc)
    /\ fst (apiFetchWithAuth P (js "/api/dreams/search") (POST (js "{}")) [])
       = Throw (ThrownApi exc)
    /\ statusCode exc = 403
    /\ isApiKeyError exc = true /\ isAuthError exc = false
    /\ isRateLimitError exc = false.
Proof.
  intros resp P.
  destruct (classification_by_status P (js "/api/dreams/search") (POST (js "{}"))
              resp [] (fun _ => eq_refl) eq_refl)
    as (out & H1 & H2 & [Hout|(exc & Hout & Hst & H403 & _)] & _).
  - rewrite Hout in H1. vm_compute in H1. discriminate H1.
  - rewrite Hout in H1, H2. exists exc.
    split; [exact H1|]. split; [exact H2|]. split; [exact Hst|].
    exact (H403 eq_refl).
Defined.

End ApiCalls.

(** ** Session helpers and the token of the auth context *)

Section SessionFacts.

Import Auth.

(** X15. When the session lookup answers, [isAuthenticated] returns
    [true] exactly when [getAccessToken] yields a token; when the lookup
    throws, [isAuthenticated] throws that error while [getAccessToken]
    returns [null]. *)
Theorem isAuthenticated_matches_token (P : Platform) :
  (forall r, getSession P = Normal r ->
     exists b tok,
       fst (SupabaseChecks.isAuthenticated P []) = Normal b
       /\ fst (Supabase.getAccessToken P []) = Normal tok
       /\ (b = true <-> tok <> None))
  /\ (forall e, getSession P = Throw e ->
        fst (SupabaseChecks.isAuthenticated P []) = Throw e
        /\ fst (Supabase.getAccessToken P []) = Normal None).
Proof.
  unfold SupabaseChecks.isAuthenticated, Supabase.getAccessToken; run_M.
  split.
  - intros r ->. simpl. destruct (data_session r) as [s|].
    + exists true, (Some (access_token s)). repeat split; congruence.
    + exists false, None. repeat split; congruence.
  - intros e ->. simpl. auto.
Qed.

Lemma isAuthenticated_matches_token_witness :
  let P := sample_platform None
             (Throw (ThrownPlatform (js "storage unavailable"))) signed_out
             (Normal unhealthy) 0 in
  fst (SupabaseChecks.isAuthenticated P [])
  = Throw (ThrownPlatform (js "storage unavailable"))
  /\ fst (Supabase.getAccessToken P []) = Normal None.
Proof.
  intros P.
  exact (proj2 (isAuthenticated_matches_token P)
           (ThrownPlatform (js "storage unavailable")) eq_refl).
Defined.

(** X16. The context's [getToken] without refresh and [getAccessToken]
    return the same token on every platform, and their logs are equal
    event for event once the console line of the failure, "Error getting
    access token:", is replaced by "Error getting token:". *)
Theorem basic_getToken_is_getAccessToken (P : Platform) :
  fst (AuthContextBasic.getToken P []) = fst (Supabase.getAccessToken P [])
  /\ snd (AuthContextBasic.getToken P [])
     = List.map relabel_failure (snd (Supabase.getAccessToken P [])).
Proof.
  unfold AuthContextBasic.getToken, Supabase.getAccessToken; run_M.
  destruct (getSession P) as [r|e]; simpl; auto.
Qed.

(** X17. [getToken] of the auth context never throws, whatever the
    session lookup and the refresh do; it looks the session up once,
    refreshes at most once and sends no request of its own. *)
Theorem getToken_never_throws (P : Platform) :
  exists tok,
    fst (getToken P []) = Normal tok
    /\ session_lookups (snd (getToken P [])) = 1%nat
    /\ (refreshes (snd (getToken P [])) <= 1)%nat
    /\ requests (snd (getToken P [])) = [].
Proof.
  unfold getToken; run_M; unfold emit.
  destruct (getSession P) as [r|e]; simpl.
  2:{ eexists; repeat split; try reflexivity; simpl; lia. }
  destruct (error r); simpl.
  { eexists; repeat split; try reflexivity; simpl; lia. }
  destruct (data_session r) as [s|]; simpl.
  2:{ eexists; repeat split; try reflexivity; simpl; lia. }
  destruct (expiring_soon P (expires_at s)); simpl.
  2:{ eexists; repeat split; try reflexivity; simpl; lia. }
  destruct (refreshSession P) as [r'|e']; simpl.
  2:{ eexists; repeat split; try reflexivity; simpl; lia. }
  destruct (error r'), (data_session r'); simpl;
    eexists; repeat split; try reflexivity; simpl; lia.
Qed.

(** X18. When the session lookup throws or reports an error, [getToken]
    returns [null] without refreshing, even if the answer carries a
    session. *)
Theorem getToken_null_on_lookup_error (P : Platform) :
  (forall e, getSession P = Throw e ->
     fst (getToken P []) = Normal None
     /\ refreshes (snd (getToken P [])) = 0%nat)
  /\ (forall r text, getSession P = Normal r -> error r = Some text ->
        fst (getToken P []) = Normal None
        /\ refreshes (snd (getToken P [])) = 0%nat).
Proof.
  unfold getToken; run_M. split.
  - intros e ->. simpl. auto.
  - intros r text -> Hr. simpl. rewrite Hr. simpl. auto.
Qed.

Lemma getToken_null_on_lookup_error_witness :
  let P := sample_platform None
             (Normal {| data_session :=
                          Some {| access_token := js "jwt"; expires_at := None |};
                        error := Some (js "clock skew") |})
             signed_out (Normal unhealthy) 0 in
  fst (getToken P []) = Normal None
  /\ refreshes (snd (getToken P [])) = 0%nat.
Proof.
  intros P.
  exact (proj2 (getToken_null_on_lookup_error P) _ (js "clock skew") eq_refl eq_refl).
Defined.

(** X19. When the lookup reports no error and [getToken] does not
    refresh, it returns what [getAccessToken] returns: the two token
    sources differ only on an expiring session and on a reported error. *)
Theorem getToken_agrees_without_refresh (P : Platform) (r : AuthResponse) :
  getSession P = Normal r ->
  error r = None ->
  refreshes (snd (getToken P [])) = 0%nat ->
  fst (getToken P []) = fst (Supabase.getAccessToken P []).
Proof.
  unfold getToken, Supabase.getAccessToken; run_M.
  intros -> He. simpl. rewrite He. simpl.
  destruct (data_session r) as [s|]; simpl; [|reflexivity].
  destruct (expiring_soon P (expires_at s)); simpl; [|reflexivity].
  destruct (refreshSession P) as [r'|e']; simpl; [|discriminate].
  destruct (error r'), (data_session r'); simpl; discriminate.
Qed.

Lemma getToken_agrees_without_refresh_witness :
  let P := sample_platform None (signed_in (js "jwt") (Some 1700003600%Z))
             signed_out (Normal unhealthy) 1700000000000 in
  fst (getToken P []) = fst (Supabase.getAccessToken P []).
Proof.
  intros P.
  apply (getToken_agrees_without_refresh P
           {| data_session :=
                Some {| access_token := js "jwt"; expires_at := Some 1700003600%Z |};
              error := None |}); reflexivity.
Defined.

End SessionFacts.

(** ** The pages that call the client *)

Section PageFacts.

(** The text shown after a failure is never empty. *)
Lemma message_or_truthy (m : option jsstring) (fallback : jsstring) :
  str_truthy fallback = true -> str_truthy (message_or m fallback) = true.
Proof.
  intros H. unfold message_or. destruct m as [text|]; [|exact H].
  destruct (str_truthy text) eqn:E; [exact E | exact H].
Qed.

(** X20. Whatever the token source, the server and the response body do,
    [fetchHistory] for a signed-in user never throws and ends with the
    loading flag off; then either the history was replaced and no error is
    shown, or the history is untouched and a non-empty error text is
    shown. *)
Theorem fetchHistory_settles (P : Platform) (getToken : M (option jsstring))
    (message_of : thrown -> option jsstring) (st : ProfilePage.History)
    (log : list event) :
  exists st',
    fst (ProfilePage.fetchHistory P getToken message_of true st log) = Normal st'
    /\ ProfilePage.isLoadingHistory st' = false
    /\ (ProfilePage.historyError st' = None
        \/ (ProfilePage.dreams st' = ProfilePage.dreams st
            /\ exists text, ProfilePage.historyError st' = Some text
                            /\ str_truthy text = true)).
Proof.
  unfold ProfilePage.fetchHistory. simpl.
  unfold try_catch at 1. unfold bind at 1 2.
  destruct (ProfilePage.try_fetchHistory P getToken log) as [[outcome|e] l];
    [destruct outcome as [data| |text]|]; run_M; simpl.
  - eexists. repeat split. left. reflexivity.
  - eexists. repeat split. right. split; [reflexivity|].
    eexists. split; reflexivity.
  - eexists. repeat split. right. split; [reflexivity|].
    eexists. split; [reflexivity|].
    apply (message_or_truthy (Some text) ProfilePage.history_failed_text).
    reflexivity.
  - eexists. repeat split. right. split; [reflexivity|].
    eexists. split; [reflexivity|].
    apply (message_or_truthy (message_of e) ProfilePage.history_failed_text).
    reflexivity.
Qed.

(** X21. When the token source gives no token ([null] or the empty
    string), [fetchHistory] sends no request: it shows the session-expired
    text, leaves the history as it was and turns the loading flag off. *)
Theorem fetchHistory_without_token (P : Platform) (getToken : M (option jsstring))
    (message_of : thrown -> option jsstring) (st : ProfilePage.History)
    (log l : list event) (tok : option jsstring) :
  getToken log = (Normal tok, l) ->
  tok = None \/ tok = Some [] ->
  ProfilePage.fetchHistory P getToken message_of true st log
  = (Normal {| ProfilePage.dreams := ProfilePage.dreams st;
               ProfilePage.isLoadingHistory := false;
               ProfilePage.historyError := Some ProfilePage.session_expired_text |},
     l).
Proof.
  intros Hg Htok.
  unfold ProfilePage.fetchHistory, ProfilePage.try_fetchHistory; run_M.
  cbn beta iota delta [negb]. rewrite Hg. destruct Htok as [-> | ->]; reflexivity.
Qed.

Lemma fetchHistory_without_token_witness :
  let P := sample_platform None signed_out signed_out (Normal unhealthy) 0 in
  let st := {| ProfilePage.dreams := JArr [];
               ProfilePage.isLoadingHistory := false;
               ProfilePage.historyError := None |} in
  ProfilePage.fetchHistory P (Auth.getToken P) (fun _ => None) true st []
  = (Normal {| ProfilePage.dreams := JArr [];
               ProfilePage.isLoadingHistory := false;
               ProfilePage.historyError := Some ProfilePage.session_expired_text |},
     [EvGetSession; EvConsoleLog (js "No active session found")]).
Proof.
  intros P st.
  apply (fetchHistory_without_token P (Auth.getToken P) (fun _ => None) st [] _ None).
  - reflexivity.
  - left. reflexivity.
Defined.

(** X22. With a non-empty token [fetchHistory] sends one request, to the
    history path without a limit, carrying [Authorization: Bearer <token>]
    and an [X-API-Key] entry that is present even when the client key is
    empty, and no [Content-Type]; on a 2xx answer the parsed body becomes
    the history. *)
Theorem fetchHistory_request (P : Platform) (getToken : M (option jsstring))
    (message_of : thrown -> option jsstring) (st : ProfilePage.History)
    (l : list event) (t : jsstring) :
  getToken [] = (Normal (Some t), l) ->
  requests l = [] ->
  t <> [] ->
  let run := ProfilePage.fetchHistory P getToken message_of true st [] in
  requests (snd run)
  = [(Api.API_BASE_URL P ++ js "/api/dreams/history",
      Some (ProfilePage.history_init P t))]
  /\ sent_header (snd run) (js "Authorization") = [Some (js "Bearer " ++ t)]
  /\ sent_header (snd run) (js "X-API-Key") = [Some (Api.API_SECRET_KEY P)]
  /\ sent_header (snd run) (js "Content-Type") = [None]
  /\ (forall resp data,
        fetch P (Api.API_BASE_URL P ++ js "/api/dreams/history")
          (Some (ProfilePage.history_init P t)) = Normal resp ->
        ok resp = true -> json_body resp = Normal data ->
        fst run = Normal {| ProfilePage.dreams := data;
                            ProfilePage.isLoadingHistory := false;
                            ProfilePage.historyError := None |}).
Proof.
  intros Hg Hl Ht run.
  assert (str_truthy t = true) as Htruthy by (destruct t; [congruence | reflexivity]).
  assert (requests (snd run)
          = [(Api.API_BASE_URL P ++ js "/api/dreams/history",
              Some (ProfilePage.history_init P t))]) as Hreq.
  { unfold run, ProfilePage.fetchHistory, ProfilePage.try_fetchHistory,
      Api.call_fetch, Api.get_field; run_M; unfold emit.
    cbn beta iota delta [negb]. rewrite Hg, Htruthy. simpl.
    destruct (fetch P _ _) as [resp|e]; simpl;
      [|rewrite !requests_app, Hl; reflexivity].
    destruct (ok resp); simpl.
    - destruct (json_body resp); simpl; rewrite !requests_app, Hl; reflexivity.
    - destruct (json_body resp) as [j|e]; simpl.
      + destruct j; simpl;
          repeat match goal with
                 | |- context [js_or ?a ?b] => destruct (js_or a b); simpl
                 | |- context [Api.ToString P ?a] => destruct (Api.ToString P a); simpl
                 end;
          rewrite !requests_app, Hl; reflexivity.
      + rewrite !requests_app, Hl; reflexivity. }
  split; [exact Hreq|].
  unfold sent_header. rewrite Hreq. simpl.
  split; [|split; [|split]].
  - rewrite lookup_insert_ne by discriminate. rewrite lookup_singleton_eq. reflexivity.
  - rewrite lookup_insert_eq. reflexivity.
  - rewrite lookup_insert_ne by discriminate.
    rewrite lookup_singleton_ne by discriminate. reflexivity.
  - intros resp data Hf Hok Hbody.
    unfold run, ProfilePage.fetchHistory, ProfilePage.try_fetchHistory,
      Api.call_fetch; run_M.
    cbn beta iota delta [negb]. rewrite Hg, Htruthy. simpl.
    rewrite Hf, Hok. simpl. rewrite Hbody. reflexivity.
Qed.

Lemma fetchHistory_request_witness :
  let resp := {| status := 200; statusText := js "OK";
                 json_body := Normal (JArr [JStr (js "dream")]) |} in
  let P := sample_platform None (signed_in (js "jwt") None) signed_out
             (Normal resp) 0 in
  let st := {| ProfilePage.dreams := JArr [];
               ProfilePage.isLoadingHistory := false;
               ProfilePage.historyError := None |} in
  let run := ProfilePage.fetchHistory P (Auth.getToken P) (fun _ => None) true st [] in
  sent_header (snd run) (js "Authorization") = [Some (js "Bearer jwt")]
  /\ sent_header (snd run) (js "X-API-Key") = [Some []].
Proof.
  intros resp P st run.
  destruct (fetchHistory_request P (Auth.getToken P) (fun _ => None) st
              [EvGetSession] (js "jwt") eq_refl eq_refl)
    as (_ & Ha & Hk & _); [discriminate|].
  split; [exact Ha | exact Hk].
Defined.

(** X23. A new password that differs from its confirmation, or has fewer
    than 6 code units, is rejected before [updateUser] is consulted: the
    result is the same for every [updateUser], the form is left as it was,
    and the mismatch is reported before the length. *)
Theorem password_rejected_before_update
    (updateUser updateUser' : jsstring -> completion thrown (option jsstring))
    (message_of message_of' : thrown -> option jsstring)
    (st : ProfilePage.PasswordState) (log : list event) :
  let pw := ProfilePage.passwords st in
  ProfilePage.new pw <> ProfilePage.confirm pw
  \/ (length (ProfilePage.new pw) < 6)%nat ->
  ProfilePage.handleChangePassword updateUser message_of st log
  = ProfilePage.handleChangePassword updateUser' message_of' st log
  /\ ProfilePage.handleChangePassword updateUser message_of st log
     = (Normal {| ProfilePage.passwords := pw;
                  ProfilePage.isChangingPassword := ProfilePage.isChangingPassword st;
                  ProfilePage.passwordMessage :=
                    Some (ProfilePage.failure,
                          if bool_decide (ProfilePage.new pw = ProfilePage.confirm pw)
                          then ProfilePage.too_short_text
                          else ProfilePage.mismatch_text) |}, log).
Proof.
  intros pw H.
  assert (forall u m,
            ProfilePage.handleChangePassword u m st log
            = (Normal {| ProfilePage.passwords := pw;
                         ProfilePage.isChangingPassword := ProfilePage.isChangingPassword st;
                         ProfilePage.passwordMessage :=
                           Some (ProfilePage.failure,
                                 if bool_decide (ProfilePage.new pw = ProfilePage.confirm pw)
                                 then ProfilePage.too_short_text
                                 else ProfilePage.mismatch_text) |}, log)) as Hall.
  { intros u m. unfold ProfilePage.handleChangePassword. fold pw.
    case_bool_decide as Heq; simpl; [|reflexivity].
    destruct H as [H|H]; [contradiction|].
    apply Nat.ltb_lt in H. rewrite H. reflexivity. }
  split; [rewrite !Hall; reflexivity | apply Hall].
Qed.

Lemma password_rejected_before_update_witness :
  let st := {| ProfilePage.passwords :=
                 {| ProfilePage.current := js "old-secret";
                    ProfilePage.new := js "abc";
                    ProfilePage.confirm := js "abc" |};
               ProfilePage.isChangingPassword := false;
               ProfilePage.passwordMessage := None |} in
  ProfilePage.handleChangePassword (fun _ => Normal None) (fun _ => None) st []
  = (Normal {| ProfilePage.passwords := ProfilePage.passwords st;
               ProfilePage.isChangingPassword := false;
               ProfilePage.passwordMessage :=
                 Some (ProfilePage.failure, ProfilePage.too_short_text) |}, []).
Proof.
  intros st.
  refine (proj2 (password_rejected_before_update
                   (fun _ => Normal None) (fun _ => Normal None)
                   (fun _ => None) (fun _ => None) st [] _)).
  right. vm_compute. lia.
Defined.

(** X24. For a confirmed new password of at least 6 code units,
    [handleChangePassword] never throws and ends with the busy flag off;
    the form is cleared and the success text shown exactly when
    [updateUser] returns without an error, and otherwise the form is kept
    and a non-empty failure text shown. *)
Theorem password_change_settles
    (updateUser : jsstring -> completion thrown (option jsstring))
    (message_of : thrown -> option jsstring)
    (st : ProfilePage.PasswordState) (log : list event) :
  let pw := ProfilePage.passwords st in
  ProfilePage.new pw = ProfilePage.confirm pw ->
  (6 <= length (ProfilePage.new pw))%nat ->
  exists st',
    fst (ProfilePage.handleChangePassword updateUser message_of st log) = Normal st'
    /\ ProfilePage.isChangingPassword st' = false
    /\ match updateUser (ProfilePage.new pw) with
       | Normal None =>
           ProfilePage.passwords st'
           = {| ProfilePage.current := []; ProfilePage.new := [];
                ProfilePage.confirm := [] |}
           /\ ProfilePage.passwordMessage st'
              = Some (ProfilePage.success, ProfilePage.changed_text)
       | _ =>
           ProfilePage.passwords st' = pw
           /\ exists text,
                ProfilePage.passwordMessage st' = Some (ProfilePage.failure, text)
                /\ str_truthy text = true
       end.
Proof.
  intros pw Heq Hlen.
  unfold ProfilePage.handleChangePassword. fold pw.
  rewrite bool_decide_eq_true_2 by exact Heq. simpl.
  assert ((length (ProfilePage.new pw) <? 6)%nat = false) as ->
    by (apply Nat.ltb_ge; exact Hlen).
  run_M; unfold emit.
  destruct (updateUser (ProfilePage.new pw)) as [[text|]|e]; simpl.
  - eexists. repeat split. eexists. split; [reflexivity|].
    apply (message_or_truthy (Some text) ProfilePage.change_failed_text).
    reflexivity.
  - eexists. repeat split.
  - eexists. repeat split. eexists. split; [reflexivity|].
    apply (message_or_truthy (message_of e) ProfilePage.change_failed_text).
    reflexivity.
Qed.

Lemma password_change_settles_witness :
  let st := {| ProfilePage.passwords :=
                 {| ProfilePage.current := js "old-secret";
                    ProfilePage.new := js "new-secret";
                    ProfilePage.confirm := js "new-secret" |};
               ProfilePage.isChangingPassword := false;
               ProfilePage.passwordMessage := None |} in
  exists st',
    fst (ProfilePage.handleChangePassword (fun _ => Normal None) (fun _ => None) st [])
    = Normal st'
    /\ ProfilePage.isChangingPassword st' = false
    /\ ProfilePage.passwords st'
       = {| ProfilePage.current := []; ProfilePage.new := [];
            ProfilePage.confirm := [] |}
    /\ ProfilePage.passwordMessage st'
       = Some (ProfilePage.success, ProfilePage.changed_text).
Proof.
  intros st.
  destruct (password_change_settles (fun _ => Normal None) (fun _ => None) st []
              eq_refl) as (st' & H1 & H2 & H3 & H4).
  - vm_compute. lia.
  - exists st'. auto.
Defined.

(** *** The dream form *)

(** The state after [handleSubmit], by the completion of the call. *)
Lemma handleSubmit_run (P : Platform) (stringify : jsstring -> jsstring)
    (st : DreamForm.State) (log : list event) :
  fst (DreamForm.handleSubmit P stringify st log)
  = Normal
      match fst (Api.analyzeTriangle P (stringify (DreamForm.dreamText st)) log) with
      | Normal response =>
          {| DreamForm.dreamText := DreamForm.dreamText st;
             DreamForm.result := response;
             DreamForm.isLoading := false;
             DreamForm.error := None |}
      | Throw err =>
          {| DreamForm.dreamText := DreamForm.dreamText st;
             DreamForm.result := JNull;
             DreamForm.isLoading := false;
             DreamForm.error :=
               match err with
               | ThrownApi exc => js_or (detail exc) (Some (JStr (message exc)))
               | _ => Some (JStr (js "The oracle is silent right now. Please try again later."))
               end |}
      end
  /\ snd (DreamForm.handleSubmit P stringify st log)
     = snd (Api.analyzeTriangle P (stringify (DreamForm.dreamText st)) log).
Proof.
  unfold DreamForm.handleSubmit; run_M.
  destruct (Api.analyzeTriangle P _ log) as [[response|err] l]; simpl;
    split; reflexivity.
Qed.

(** X25. [handleSubmit] never throws and always ends with the loading flag
    off and the dream text kept.  It sends one request, to the triangle
    path, looks no session up and sends no [Authorization] header; after
    it, either no error is set, or the result is [null] and an error is
    set. *)
Theorem handleSubmit_settles (P : Platform) (stringify : jsstring -> jsstring)
    (st : DreamForm.State) :
  exists st',
    fst (DreamForm.handleSubmit P stringify st []) = Normal st'
    /\ DreamForm.isLoading st' = false
    /\ DreamForm.dreamText st' = DreamForm.dreamText st
    /\ (DreamForm.error st' = None
        \/ (DreamForm.result st' = JNull /\ DreamForm.error st' <> None))
    /\ (exists init,
          requests (snd (DreamForm.handleSubmit P stringify st []))
          = [(Api.API_BASE_URL P ++ js "/api/dreams/triangle", init)])
    /\ session_lookups (snd (DreamForm.handleSubmit P stringify st [])) = 0%nat
    /\ sent_header (snd (DreamForm.handleSubmit P stringify st []))
         (js "Authorization") = [None].
Proof.
  destruct (handleSubmit_run P stringify st []) as [Hfst Hsnd].
  rewrite Hfst, Hsnd. eexists. split; [reflexivity|].
  unfold Api.analyzeTriangle. rewrite apiFetch_run. cbn [fst snd].
  split; [|split; [|split; [|split; [|split]]]].
  - destruct (fetch P _ _) as [resp|e]; [destruct (ok resp); [destruct (json_body resp)|
      destruct (failure_of P resp)]|]; reflexivity.
  - destruct (fetch P _ _) as [resp|e]; [destruct (ok resp); [destruct (json_body resp)|
      destruct (failure_of P resp)]|]; reflexivity.
  - assert (forall err : thrown,
              match err with
              | ThrownApi exc => js_or (detail exc) (Some (JStr (message exc)))
              | _ => Some (JStr (js "The oracle is silent right now. Please try again later."))
              end <> None) as Hset.
    { intros [exc| |tag]; try discriminate.
      unfold js_or. destruct (truthy (detail exc)) eqn:E; [|discriminate].
      destruct (detail exc); [discriminate | discriminate E]. }
    destruct (fetch P _ _) as [resp|e];
      [destruct (ok resp); [destruct (json_body resp)| destruct (failure_of P resp)]|];
      simpl; try (left; reflexivity); right; (split; [reflexivity | apply Hset]).
  - eexists. reflexivity.
  - reflexivity.
  - unfold sent_header. simpl. rewrite spread_lookup, lookup_empty.
    rewrite base_header_authorization. reflexivity.
Qed.

(** X26. What the form shows after a failure: the fixed oracle text when
    [fetch] itself fails, hiding the cause; on a non-2xx answer the
    [detail] of the error body when it is a non-empty string, and the
    status line when the body does not parse. *)
Theorem handleSubmit_error_text (P : Platform) (stringify : jsstring -> jsstring)
    (st : DreamForm.State) (out : completion thrown Response) :
  (forall init, fetch P (Api.API_BASE_URL P ++ js "/api/dreams/triangle") init = out) ->
  let shown :=
    match fst (DreamForm.handleSubmit P stringify st []) with
    | Normal st' => DreamForm.error st'
    | Throw _ => None
    end in
  (forall tag, out = Throw (ThrownPlatform tag) ->
     shown = Some (JStr (js "The oracle is silent right now. Please try again later.")))
  /\ (forall resp props ds,
        out = Normal resp -> ok resp = false ->
        json_body resp = Normal (JObj props) ->
        own_property props (js "detail") = Some (JStr ds) -> ds <> [] ->
        shown = Some (JStr ds))
  /\ (forall resp e,
        out = Normal resp -> ok resp = false -> json_body resp = Throw e ->
        shown = Some (JStr (js "HTTP " ++ decimal (status resp) ++ js ": "
                            ++ statusText resp))).
Proof.
  intros Hfetch shown. unfold shown.
  destruct (handleSubmit_run P stringify st []) as [-> _].
  unfold Api.analyzeTriangle. rewrite apiFetch_run. cbn [fst]. rewrite Hfetch.
  split; [|split].
  - intros tag ->. reflexivity.
  - intros resp props ds -> Hok Hbody Hd Hne. rewrite Hok.
    rewrite (failure_of_object P resp props Hbody), Hd.
    destruct ds as [|ch ds]; [congruence|]. reflexivity.
  - intros resp e -> Hok Hbody. rewrite Hok.
    unfold failure_of. rewrite (read_errorData_unparsable resp e [] Hbody).
    reflexivity.
Qed.

Lemma handleSubmit_error_text_witness :
  let P := sample_platform None signed_out signed_out (Normal bad_gateway) 0 in
  let st := {| DreamForm.dreamText := js "I was flying"; DreamForm.result := JNull;
               DreamForm.isLoading := false; DreamForm.error := None |} in
  match fst (DreamForm.handleSubmit P (fun text => text) st []) with
  | Normal st' => DreamForm.error st'
  | Throw _ => None
  end = Some (JStr (js "HTTP 502: Bad Gateway")).
Proof.
  intros P st.
  refine (proj2 (proj2 (handleSubmit_error_text P (fun text => text) st
                          (Normal bad_gateway) _))
            bad_gateway (ThrownPlatform (js "SyntaxError")) eq_refl eq_refl eq_refl).
  intros init. reflexivity.
Defined.

End PageFacts.
